(** * Day_5/Cellpose_parallel.ipynb: lazy loading, task graph, parallel run

    A shallow embedding of the notebook's three functions
    ([load_binary_from_s3], [analyze], [build_task_graph]) and of the call
    [dask.compute] on the list of delayed results, together with the part
    of the libraries they rest on: dask arrays (lazy, integer indices
    checked and wrapped as in NumPy), [dask.delayed] and the scheduler
    behind [dask.compute].

    Python state is explicit: the notebook's global [data], the remote
    object store and a trace of the library-level events that happened so
    far are threaded through a small state-and-exception monad. *)

From Stdlib Require Import ZArith QArith_base List Lia.
From stdpp Require Import base list list_numbers gmap strings pretty.

Local Open Scope Z_scope.

(** ** Python exceptions and fallible values *)

Inductive PyError : Type :=
  | TupleIndexError                            (* tuple index out of range *)
  | TooManyIndices                             (* dask: too many indices for array *)
  | IndexError (axis : nat) (ind dim : Z)      (* dask: index out of bounds for axis *)
  | FetchError (pos : list Z)                  (* the store could not deliver a voxel *)
  | PathNotFound (url : string)                (* no array under that URL *)
  | OperationError (code : Z)                  (* the model raised *)
  | SchedulerError.                            (* a key was never computed *)

Inductive result (A : Type) : Type :=
  | Ok (a : A)
  | Raise (e : PyError).
Arguments Ok {A} a.
Arguments Raise {A} e.

Definition rbind {A B} (r : result A) (k : A -> result B) : result B :=
  match r with
  | Ok a => k a
  | Raise e => Raise e
  end.

Definition rmap {A B} (f : A -> B) (r : result A) : result B :=
  rbind r (fun a => Ok (f a)).

Definition is_Ok {A} (r : result A) : Prop := exists a, r = Ok a.

(** ** Arrays

    A dask array built by [da.from_zarr] knows its shape and reads voxels on
    demand; a read can fail. A dense array is what NumPy holds: a shape and
    the values in row-major order. *)

Record LazyArray : Type := {
  shape : list Z;
  voxel : list Z -> result Z
}.

Record Dense : Type := {
  dshape : list Z;
  dvals : list Z
}.

(** An element of an index tuple: an integer or the full slice [:]. *)
Inductive index : Type :=
  | Int (i : Z)
  | FullSlice.

(** [shape[i]] on a tuple, for a literal non-negative [i]. *)
Definition tuple_getitem (t : list Z) (i : nat) : result Z :=
  match t !! i with
  | Some n => Ok n
  | None => Raise TupleIndexError
  end.

(** dask.array.slicing.check_index: an integer index must lie in
    [-dimension, dimension). *)
Definition check_index (axis : nat) (ind : index) (dimension : Z) : result unit :=
  match ind with
  | FullSlice => Ok tt
  | Int i =>
      if dimension <=? i then Raise (IndexError axis i dimension)
      else if i <? - dimension then Raise (IndexError axis i dimension)
      else Ok tt
  end.

(** dask.array.slicing.posify_index: a negative index counts from the end. *)
Definition posify_index (ind : index) (dimension : Z) : index :=
  match ind with
  | FullSlice => FullSlice
  | Int i => if i <? 0 then Int (i + dimension) else Int i
  end.

Fixpoint check_axes (axis : nat) (idx : list index) (shp : list Z) : result unit :=
  match idx, shp with
  | i :: idx', d :: shp' =>
      rbind (check_index axis i d) (fun _ => check_axes (S axis) idx' shp')
  | _, _ => Ok tt
  end.

Fixpoint posify_axes (idx : list index) (shp : list Z) : list index :=
  match idx, shp with
  | i :: idx', d :: shp' => posify_index i d :: posify_axes idx' shp'
  | _, _ => []
  end.

(** dask.array.slicing.normalize_index: pad with full slices, refuse an
    index tuple longer than the array has axes, check every axis, then make
    the integer indices non-negative. *)
Definition normalize_index (idx : list index) (shp : list Z) : result (list index) :=
  let idx := idx ++ replicate (length shp - length idx) FullSlice in
  if (length shp <? length idx)%nat then Raise TooManyIndices
  else rbind (check_axes 0 idx shp) (fun _ => Ok (posify_axes idx shp)).

(** A lazy slice of a lazy array: what [data[t, :, z, :, :]] evaluates to.
    Nothing is read; the normalized selector is remembered. *)
Record LazyView : Type := {
  base : LazyArray;
  sel : list index
}.

Definition getitem (a : LazyArray) (idx : list index) : result LazyView :=
  rmap (fun s => {| base := a; sel := s |}) (normalize_index idx (shape a)).

(** Python's [range(a, b)] over the integers. *)
Definition range (a b : Z) : list Z := seqZ a (b - a).

Definition axis_positions (ind : index) (dimension : Z) : list Z :=
  match ind with
  | Int i => [i]
  | FullSlice => range 0 dimension
  end.

(** The voxel positions a normalized selector covers, in row-major order. *)
Fixpoint positions (s : list index) (shp : list Z) : list (list Z) :=
  match s, shp with
  | i :: s', d :: shp' =>
      p ← axis_positions i d; (p ::.) <$> positions s' shp'
  | _, _ => [[]]
  end.

(** The shape of the slice: integer indices drop their axis. *)
Fixpoint view_shape (s : list index) (shp : list Z) : list Z :=
  match s, shp with
  | Int _ :: s', _ :: shp' => view_shape s' shp'
  | FullSlice :: s', d :: shp' => d :: view_shape s' shp'
  | _, _ => []
  end.

(** All-or-nothing read of a list of voxels. *)
Fixpoint read_voxels (rd : list Z -> result Z) (ps : list (list Z)) : result (list Z) :=
  match ps with
  | [] => Ok []
  | p :: ps' =>
      rbind (rd p) (fun v => rbind (read_voxels rd ps') (fun vs => Ok (v :: vs)))
  end.

(** Materializing a lazy slice: the only place where voxels are read. *)
Definition fetch (x : LazyView) : result Dense :=
  rmap (fun vs => {| dshape := view_shape (sel x) (shape (base x)); dvals := vs |})
       (read_voxels (voxel (base x)) (positions (sel x) (shape (base x)))).

(** ** The interpreter state *)

Inductive event : Type :=
  | EvOpen (url : string)          (* da.from_zarr read the array's metadata *)
  | EvDelayed (z : Z)              (* dask.delayed(analyze)(z) recorded a task *)
  | EvCall (z : Z)                 (* analyze(z) started *)
  | EvFetch (s : list index)       (* the voxels under a selector were requested *)
  | EvEval (img : Dense).          (* the network ran on a dense image *)

Record World : Type := {
  s3 : gmap string LazyArray;      (* the remote object store *)
  g_data : LazyArray;              (* the notebook's global [data] *)
  trace : list event
}.

Definition M (A : Type) : Type := World -> result A * World.

Definition ret {A} (a : A) : M A := fun w => (Ok a, w).

Definition raise {A} (e : PyError) : M A := fun w => (Raise e, w).

Definition bind {A B} (m : M A) (k : A -> M B) : M B :=
  fun w =>
    match m w with
    | (Ok a, w') => k a w'
    | (Raise e, w') => (Raise e, w')
    end.

Definition lift {A} (r : result A) : M A := fun w => (r, w).

Notation "x <- m ;; k" := (bind m (fun x => k))
  (at level 100, m at next level, right associativity).
Notation "m ;;; k" := (bind m (fun _ => k))
  (at level 100, right associativity).

Definition log (e : event) : M unit :=
  fun w => (Ok tt, {| s3 := s3 w; g_data := g_data w; trace := trace w ++ [e] |}).

Definition read_data : M LazyArray := fun w => (Ok (g_data w), w).

Definition assign_data (a : LazyArray) : M unit :=
  fun w => (Ok tt, {| s3 := s3 w; g_data := a; trace := trace w |}).

(** The events that touch pixel data or run the analysis. *)
Definition is_work (e : event) : bool :=
  match e with
  | EvCall _ | EvFetch _ | EvEval _ => true
  | EvOpen _ | EvDelayed _ => false
  end.

Definition work_events (t : list event) : nat := length (filter is_work t).

(** ** da.from_zarr and load_binary_from_s3

    [da.from_zarr] opens the array behind a URL: it reads the metadata (the
    shape) and returns a dask array; no voxel is read. *)

Definition from_zarr (url : string) : M LazyArray :=
  fun w =>
    match s3 w !! url with
    | Some a => (log (EvOpen url) ;;; ret a) w
    | None => (Raise (PathNotFound url), w)
    end.

Definition ENPOINT_URL : string := "https://uk1s3.embassy.ebi.ac.uk/".

(** ['%s/%s/' % (name, resolution)] on two strings. *)
Definition load_binary_from_s3 (name resolution : string) : M LazyArray :=
  let root := (name +:+ "/" +:+ resolution +:+ "/")%string in
  from_zarr (ENPOINT_URL +:+ root)%string.

(** The default [resolution='0']. *)
Definition load_binary_from_s3_default (name : string) : M LazyArray :=
  load_binary_from_s3 name "0".

(** ** Cellpose

    [models.Cellpose(gpu=False, model_type='cyto')] builds a model; what its
    network computes on a dense image is not the notebook's business and
    stays a parameter. [model.eval] is handed a dask array. When the
    diameter is not given it first estimates the size of the objects, which
    takes two passes of the network over the image, and computes the masks
    in a third; every pass turns the dask array into a NumPy array of its
    own, and that conversion is the fetch. *)

Record Cellpose : Type := {
  gpu : bool;
  model_type : string
}.

(** One pass of the model over its input: the voxels are requested and
    read, and the network runs on the image. *)
Definition pass (x : LazyView) : M Dense :=
  log (EvFetch (sel x)) ;;;
  img <- lift (fetch x) ;;
  log (EvEval img) ;;;
  ret img.

(** [diameter is None or diameter == 0]: the size is to be estimated. *)
Definition estimates_size (diameter : option Z) : bool :=
  match diameter with
  | None => true
  | Some d => d =? 0
  end.

Section Pipeline.

Context {Masks Flows Styles Diams : Type}.

(** The network: model, image, [diameter], [channels] to the four outputs of
    [model.eval], or an exception. *)
Variable network :
  Cellpose -> Dense -> option Z -> list (list Z) ->
  result (Masks * Flows * Styles * Diams).

Definition eval (model : Cellpose) (x : LazyView) (diameter : option Z)
    (channels : list (list Z)) : M (Masks * Flows * Styles * Diams) :=
  (if estimates_size diameter then pass x ;;; pass x ;;; ret tt else ret tt) ;;;
  img <- pass x ;;
  lift (network model img diameter channels).

(** ** analyze *)

Definition analyze (z : Z) : M (Masks * Z) :=
  log (EvCall z) ;;;
  let t := 0 in
  let channels := [[0; 1]] in
  let model := {| gpu := false; model_type := "cyto" |} in
  data <- read_data ;;
  x <- lift (getitem data [Int t; FullSlice; Int z; FullSlice; FullSlice]) ;;
  out <- eval model x None channels ;;
  let '(cellpose_masks, flows, styles, diams) := out in
  ret (cellpose_masks, z).

(** ** dask.delayed

    [dask.delayed(f)(z)] calls nothing: it returns an object that remembers
    the function and its argument. Every such object is given a key of its
    own, so the scheduler never merges two of them; keys are left out. *)

Record Delayed : Type := {
  d_func : Z -> M (Masks * Z);
  d_arg : Z
}.

Definition delayed (f : Z -> M (Masks * Z)) (z : Z) : M Delayed :=
  log (EvDelayed z) ;;;
  ret {| d_func := f; d_arg := z |}.

(** The coordinate a task was recorded for. *)
Definition coordinate (t : Delayed) : Z := d_arg t.

(** [for z in range(a, b): acc = body(z, acc)]. *)
Fixpoint for_each {A} (zs : list Z) (body : Z -> A -> M A) (acc : A) : M A :=
  match zs with
  | [] => ret acc
  | z :: zs' => acc' <- body z acc ;; for_each zs' body acc'
  end.

(** ** build_task_graph *)

Definition build_task_graph (range_z : Z) : M (list Delayed) :=
  let lazy_results := [] in
  data <- read_data ;;
  n <- lift (tuple_getitem (shape data) 2) ;;
  let middle_z := n `div` 2 in
  for_each (range (middle_z - range_z) (middle_z + range_z))
    (fun z lazy_results =>
       lazy_result <- delayed analyze z ;;
       ret (lazy_results ++ [lazy_result]))
    lazy_results.

(** ** dask.compute

    The scheduler runs every task once, in an order of its own: [sched]
    lists the positions of the tasks in the order in which they are run.
    Each output is stored under the position of its task; the first
    exception ends the run and is raised to the caller. When every task is
    done the outputs are read back in the order of the arguments. *)

Definition run_task (t : Delayed) : M (Masks * Z) := d_func t (d_arg t).

Fixpoint execute (tasks : list Delayed) (sched : list nat)
    (finished : gmap nat (Masks * Z)) : M (gmap nat (Masks * Z)) :=
  match sched with
  | [] => ret finished
  | i :: sched' =>
      match tasks !! i with
      | None => execute tasks sched' finished
      | Some t =>
          r <- run_task t ;;
          execute tasks sched' (<[i := r]> finished)
      end
  end.

Definition repack (n : nat) (finished : gmap nat (Masks * Z)) :
    option (list (Masks * Z)) :=
  mapM (fun i => finished !! i) (seq 0 n).

Definition compute (tasks : list Delayed) (sched : list nat) : M (list (Masks * Z)) :=
  finished <- execute tasks sched ∅ ;;
  match repack (length tasks) finished with
  | Some results => ret results
  | None => raise SchedulerError
  end.

End Pipeline.

(** ** Pure readings of the stateful code

    What a run of [analyze] returns and which events it leaves depend on
    the global [data] only; the two functions below say so without the
    state, and [analyze_run] relates them to the code. [analyze] gives no
    diameter, so a task makes the three passes. *)

Definition add_trace (w : World) (evs : list event) : World :=
  {| s3 := s3 w; g_data := g_data w; trace := trace w ++ evs |}.

Definition cyto : Cellpose := {| gpu := false; model_type := "cyto" |}.

(** The index tuple [t, :, z, :, :] with [t = 0]. *)
Definition section_index (z : Z) : list index :=
  [Int 0; FullSlice; Int z; FullSlice; FullSlice].

(** The positions of the section [z] at timepoint 0: every channel, row and
    column, in row-major order. *)
Definition section_positions (nc ny nx z : Z) : list (list Z) :=
  c ← range 0 nc; y ← range 0 ny; x ← range 0 nx; [[0; c; z; y; x]].

(** Where an index accepted by [check_index] points. *)
Definition wrap (z nz : Z) : Z := if z <? 0 then z + nz else z.

Section Readings.

Context {Masks Flows Styles Diams : Type}.
Variable network :
  Cellpose -> Dense -> option Z -> list (list Z) ->
  result (Masks * Flows * Styles * Diams).

Definition analyze_value (d : LazyArray) (z : Z) : result (Masks * Z) :=
  rbind (getitem d (section_index z)) (fun x =>
  rbind (fetch x) (fun img =>
  rbind (network cyto img None [[0; 1]]) (fun out =>
  Ok (out.1.1.1, z)))).

Definition analyze_events (d : LazyArray) (z : Z) : list event :=
  EvCall z ::
  match getitem d (section_index z) with
  | Raise _ => []
  | Ok x =>
      match fetch x with
      | Raise _ => [EvFetch (sel x)]
      | Ok img =>
          [EvFetch (sel x); EvEval img;
           EvFetch (sel x); EvEval img;
           EvFetch (sel x); EvEval img]
      end
  end.

(** The task [dask.delayed(analyze)(z)] stands for. *)
Definition analyze_task (z : Z) : Delayed :=
  {| d_func := analyze network; d_arg := z |}.

End Readings.

(** ** The notebook session and its viewer cells

    Besides [data] the notebook binds [lazy_results], [results] and
    [labels], and its viewers draw with matplotlib. The session keeps these
    next to the interpreter state of the pipeline; what is drawn is logged
    on a canvas. *)

Definition St (S A : Type) : Type := S → result A * S.

Definition st_ret {S A} (a : A) : St S A := λ s, (Ok a, s).

Definition st_bind {S A B} (m : St S A) (k : A → St S B) : St S B :=
  λ s,
    match m s with
    | (Ok a, s') => k a s'
    | (Raise e, s') => (Raise e, s')
    end.

Definition st_lift {S A} (r : result A) : St S A := λ s, (r, s).

Notation "x <~ m ;; k" := (st_bind m (λ x, k))
  (at level 100, m at next level, right associativity).
Notation "m ;;> k" := (st_bind m (λ _, k))
  (at level 100, right associativity).

(** [seq[i]] on a tuple or a list: a negative index counts from the end,
    an index outside [-len, len) raises. *)
Definition sequence_getitem {A} (l : list A) (i : Z) : result A :=
  let n := Z.of_nat (length l) in
  let j := if i <? 0 then i + n else i in
  if (j <? 0) || (n <=? j) then Raise TupleIndexError
  else
    match l !! Z.to_nat j with
    | Some x => Ok x
    | None => Raise TupleIndexError
    end.

(** [numpy.asarray] of a dask array, which is also what [plt.imshow] does
    to one: the voxels are requested and read. *)
Definition asarray (x : LazyView) : M Dense :=
  log (EvFetch (sel x)) ;;;
  lift (fetch x).

(** The index tuple [0, 0, z, :, :] of the label image. *)
Definition label_index (z : Z) : list index :=
  [Int 0; Int 0; Int z; FullSlice; FullSlice].

Section Viewers.

Context {Masks Flows Styles Diams : Type}.
Variable network :
  Cellpose -> Dense -> option Z -> list (list Z) ->
  result (Masks * Flows * Styles * Diams).

Inductive plot : Type :=
  | PlFigure (width height : Z)      (* plt.figure(figsize=(w, h)) *)
  | PlSubplot (code : Z)             (* plt.subplot(code) *)
  | PlImshowMasks (r : Masks)        (* plt.imshow of a result of the model *)
  | PlImshow (img : Dense)           (* plt.imshow of pixel data *)
  | PlTitle (s : string)             (* plt.title(s) *)
  | PlFlush.                         (* fig.canvas.flush_events() *)

Record Notebook : Type := {
  kernel : World;
  g_lazy_results : list (@Delayed Masks);
  g_results : list (Masks * Z);
  g_labels : LazyArray;
  canvas : list plot
}.

Definition in_kernel {A} (m : M A) : St Notebook A :=
  λ nb,
    let (r, w) := m (kernel nb) in
    (r, {| kernel := w; g_lazy_results := g_lazy_results nb;
           g_results := g_results nb; g_labels := g_labels nb;
           canvas := canvas nb |}).

Definition draw (p : plot) : St Notebook unit :=
  λ nb,
    (Ok tt, {| kernel := kernel nb; g_lazy_results := g_lazy_results nb;
               g_results := g_results nb; g_labels := g_labels nb;
               canvas := canvas nb ++ [p] |}).

Definition read_results : St Notebook (list (Masks * Z)) :=
  λ nb, (Ok (g_results nb), nb).

Definition read_lazy_results : St Notebook (list Delayed) :=
  λ nb, (Ok (g_lazy_results nb), nb).

Definition read_labels : St Notebook LazyArray :=
  λ nb, (Ok (g_labels nb), nb).

Definition assign_lazy_results (l : list Delayed) : St Notebook unit :=
  λ nb,
    (Ok tt, {| kernel := kernel nb; g_lazy_results := l;
               g_results := g_results nb; g_labels := g_labels nb;
               canvas := canvas nb |}).

Definition assign_results (rs : list (Masks * Z)) : St Notebook unit :=
  λ nb,
    (Ok tt, {| kernel := kernel nb; g_lazy_results := g_lazy_results nb;
               g_results := rs; g_labels := g_labels nb;
               canvas := canvas nb |}).

Definition assign_labels (a : LazyArray) : St Notebook unit :=
  λ nb,
    (Ok tt, {| kernel := kernel nb; g_lazy_results := g_lazy_results nb;
               g_results := g_results nb; g_labels := a;
               canvas := canvas nb |}).

(** The cell [lazy_results = build_task_graph(range_z)]. *)
Definition cell_build (range_z : Z) : St Notebook unit :=
  lazy_results <~ in_kernel (build_task_graph network range_z) ;;
  assign_lazy_results lazy_results.

(** The cell [results = dask.compute] of [lazy_results]. *)
Definition cell_compute (sched : list nat) : St Notebook unit :=
  lazy_results <~ read_lazy_results ;;
  results <~ in_kernel (compute lazy_results sched) ;;
  assign_results results.

(** The cell [labels = load_binary_from_s3(name)]. *)
Definition cell_labels (name : string) : St Notebook unit :=
  labels <~ in_kernel (load_binary_from_s3_default name) ;;
  assign_labels labels.

(** *** display_results *)

Definition display_results (i : Z) : St Notebook unit :=
  results <~ read_results ;;
  rz <~ st_lift (sequence_getitem results i) ;;
  let '(r, z) := rz in
  draw (PlFigure 10 10) ;;>
  draw (PlSubplot 121) ;;>
  draw (PlImshowMasks r) ;;>
  draw (PlTitle ("z: " +:+ pretty z)) ;;>
  draw PlFlush.

(** *** display *)

Definition display (i : Z) : St Notebook unit :=
  results <~ read_results ;;
  rz <~ st_lift (sequence_getitem results i) ;;
  let '(r, z) := rz in
  draw (PlFigure 10 10) ;;>
  draw (PlSubplot 121) ;;>
  draw (PlImshowMasks r) ;;>
  draw (PlTitle ("Cellpose z: " +:+ pretty z)) ;;>
  draw (PlSubplot 122) ;;>
  labels <~ read_labels ;;
  x <~ st_lift (getitem labels (label_index z)) ;;
  img <~ in_kernel (asarray x) ;;
  draw (PlImshow img) ;;>
  draw (PlTitle ("Original z: " +:+ pretty z)) ;;>
  draw PlFlush.

(** The session with more on the canvas. *)
Definition add_canvas (nb : Notebook) (ps : list plot) : Notebook :=
  {| kernel := kernel nb; g_lazy_results := g_lazy_results nb;
     g_results := g_results nb; g_labels := g_labels nb;
     canvas := canvas nb ++ ps |}.

End Viewers.


(** ** Day_5/stardist.ipynb

    The StarDist notebook loads its arrays eagerly, as NumPy arrays, and
    its viewer [update] indexes them directly. *)

(** [a.size]: the number of elements of an array of that shape. *)
Definition size (shp : list Z) : Z := foldr Z.mul 1 shp.

(** The place of a position in the row-major values of an array. *)
Fixpoint offset (p shp : list Z) : Z :=
  match p, shp with
  | i :: p', d :: shp' => i * size shp' + offset p' shp'
  | _, _ => 0
  end.

(** A NumPy array read through the interface of a lazy one; NumPy's basic
    indexing checks and wraps integer indices as dask does. *)
Definition as_lazy (a : Dense) : LazyArray :=
  {| shape := dshape a;
     voxel := λ p,
       match dvals a !! Z.to_nat (offset p (dshape a)) with
       | Some v => Ok v
       | None => Raise (FetchError p)
       end |}.

(** [a[idx]] on a NumPy array. *)
Definition ndarray_getitem (a : Dense) (idx : list index) : result Dense :=
  rbind (getitem (as_lazy a) idx) fetch.

(** What NumPy guarantees of every array: extents are not negative and
    there is one value per position. *)
Definition well_formed (a : Dense) : Prop :=
  Forall (λ d, 0 ≤ d) (dshape a) ∧ Z.of_nat (length (dvals a)) = size (dshape a).

(** [try: body except Exception: handler]. *)
Definition try_except {S A} (body handler : St S A) : St S A :=
  λ s,
    match body s with
    | (Ok a, s') => (Ok a, s')
    | (Raise _, s') => handler s'
    end.

Module Stardist.

Definition ENDPOINT_URL : string := "https://uk1s3.embassy.ebi.ac.uk/".

(** The whole of a dask array. *)
Definition whole (a : LazyArray) : LazyView :=
  {| base := a; sel := replicate (length (shape a)) FullSlice |}.

(** [numpy.asarray(da.from_zarr(url))]: every voxel is read at once. The
    progress bar around it only reports on the read. *)
Definition load_binary_from_s3 (name resolution : string) : M Dense :=
  let root := (name +:+ "/" +:+ resolution +:+ "/")%string in
  a <- from_zarr (ENDPOINT_URL +:+ root)%string ;;
  asarray (whole a).

(** What matplotlib and [print] were asked to do. [plt.imshow] is taken to
    accept the image it is given. *)
Inductive artist : Type :=
  | Figure (width height : Z)
  | Subplot (code : Z)
  | Imshow (img : Dense) (cmap : string) (alpha : option Q)
  | TightLayout
  | FlushEvents.

Record Session : Type := {
  data : Dense;
  labels : Dense;
  label_slices : Dense;
  drawn : list artist;
  stdout : list string
}.

Definition plt (p : artist) : St Session unit :=
  λ s,
    (Ok tt, {| data := data s; labels := labels s;
               label_slices := label_slices s;
               drawn := drawn s ++ [p]; stdout := stdout s |}).

Definition print (line : string) : St Session unit :=
  λ s,
    (Ok tt, {| data := data s; labels := labels s;
               label_slices := label_slices s;
               drawn := drawn s; stdout := stdout s ++ [line] |}).

Definition read_data : St Session Dense := λ s, (Ok (data s), s).
Definition read_labels : St Session Dense := λ s, (Ok (labels s), s).
Definition read_label_slices : St Session Dense := λ s, (Ok (label_slices s), s).

(** The index tuple [0, c, z, :, :]. *)
Definition plane_index (c z : Z) : list index :=
  [Int 0; Int c; Int z; FullSlice; FullSlice].

(** *** update *)

Definition update (z : Z) : St Session unit :=
  plt (Figure 10 10) ;;>
  plt (Subplot 121) ;;>
  let c := 1 in
  data <~ read_data ;;
  img <~ st_lift (ndarray_getitem data (plane_index c z)) ;;
  plt (Imshow img "gray" None) ;;>
  try_except
    (labels <~ read_labels ;;
     img <~ st_lift (ndarray_getitem labels (plane_index c z)) ;;
     plt (Imshow img "jet" (Some (1 # 2)%Q)))
    (print (pretty z)) ;;>
  plt (Subplot 122) ;;>
  data <~ read_data ;;
  img <~ st_lift (ndarray_getitem data (plane_index c z)) ;;
  plt (Imshow img "gray" None) ;;>
  label_slices <~ read_label_slices ;;
  img <~ st_lift (ndarray_getitem label_slices [Int z; FullSlice; FullSlice]) ;;
  plt (Imshow img "jet" (Some (1 # 2)%Q)) ;;>
  plt TightLayout ;;>
  plt FlushEvents.

(** The session after drawing [ps] and printing [lines]. *)
Definition after (s : Session) (ps : list artist) (lines : list string) : Session :=
  {| data := data s; labels := labels s; label_slices := label_slices s;
     drawn := drawn s ++ ps; stdout := stdout s ++ lines |}.

End Stardist.


(** ** The arrays and models of the examples

    An array whose voxel at (t, c, z, y, x) holds [z], a model that returns
    ten times the first value of the image it is given, and the same model
    with one value on which it raises. *)

Definition coordinate_array (shp : list Z) : LazyArray :=
  {| shape := shp;
     voxel := fun p =>
       match p !! 2%nat with
       | Some z => Ok z
       | None => Raise (FetchError p)
       end |}.

Definition times_ten (model : Cellpose) (img : Dense) (diameter : option Z)
    (channels : list (list Z)) : result (Z * unit * unit * unit) :=
  match dvals img with
  | v :: _ => Ok (v * 10, tt, tt, tt)
  | [] => Raise (OperationError 0)
  end.

Definition times_ten_except (bad : Z) (model : Cellpose) (img : Dense)
    (diameter : option Z) (channels : list (list Z)) :
    result (Z * unit * unit * unit) :=
  match dvals img with
  | v :: _ => if v =? bad then Raise (OperationError v) else Ok (v * 10, tt, tt, tt)
  | [] => Raise (OperationError 0)
  end.

Definition world_of (a : LazyArray) : World :=
  {| s3 := ∅; g_data := a; trace := [] |}.

(** The array of the end-to-end example, shape (1, 2, 10, 4, 4), the tasks
    of radius 2 around its middle section and the state after they were
    built; and an array with an odd number of sections, shape
    (1, 2, 5, 4, 4). *)
Definition example_world : World := world_of (coordinate_array [1; 2; 10; 4; 4]).

Definition example_tasks : list (@Delayed Z) :=
  analyze_task times_ten <$> [3; 4; 5; 6].

Definition example_built : World :=
  add_trace example_world (EvDelayed <$> [3; 4; 5; 6]).

Definition odd_world : World := world_of (coordinate_array [1; 2; 5; 4; 4]).


(** A session around the example array, with label data of one channel,
    before and after the two compute cells; three small NumPy arrays for
    the StarDist viewer; and a store that holds one small array. *)
Definition example_notebook : @Notebook Z :=
  {| kernel := example_world; g_lazy_results := []; g_results := [];
     g_labels := coordinate_array [1; 1; 10; 4; 4]; canvas := [] |}.

Definition example_viewed : @Notebook Z :=
  ((cell_build times_ten 2 ;;> cell_compute [3; 1; 0; 2]%nat) example_notebook).2.

Definition example_session : Stardist.Session :=
  {| Stardist.data := {| dshape := [1; 2; 3; 2; 2]; dvals := seqZ 0 24 |};
     Stardist.labels := {| dshape := [1; 1; 3; 2; 2]; dvals := replicate 12 7 |};
     Stardist.label_slices := {| dshape := [3; 2; 2]; dvals := seqZ 100 12 |};
     Stardist.drawn := [];
     Stardist.stdout := [] |}.

Definition example_store : World :=
  {| s3 := {[ "https://uk1s3.embassy.ebi.ac.uk/img.zarr/0/" :=
                coordinate_array [1; 2; 3; 2; 2] ]};
     g_data := coordinate_array [];
     trace := [] |}.


(** The coordinates [analyze] was called with, in the order of the calls. *)
Definition called (t : list event) : list Z :=
  omap (λ e, match e with EvCall z => Some z | _ => None end) t.


(** The selectors whose voxels were requested, in the order of the
    requests. *)
Definition fetched (t : list event) : list (list index) :=
  omap (λ e, match e with EvFetch s => Some s | _ => None end) t.


(** * Properties *)

Ltac run_monad :=
  unfold bind, ret, raise, lift, log, read_data, assign_data; simpl.

Section Facts.

Context {Masks Flows Styles Diams : Type}.
Variable network :
  Cellpose -> Dense -> option Z -> list (list Z) ->
  result (Masks * Flows * Styles * Diams).

Lemma add_trace_nil w : add_trace w [] = w.
Proof. destruct w; unfold add_trace; simpl. by rewrite app_nil_r. Qed.

Lemma add_trace_app w e1 e2 :
  add_trace (add_trace w e1) e2 = add_trace w (e1 ++ e2).
Proof. unfold add_trace; simpl. by rewrite app_assoc. Qed.

Lemma g_data_add_trace w evs : g_data (add_trace w evs) = g_data w.
Proof. done. Qed.

Lemma analyze_run z w :
  analyze network z w =
  (analyze_value network (g_data w) z,
   add_trace w (analyze_events (g_data w) z)).
Proof.
  unfold analyze, analyze_value, analyze_events, eval, pass, estimates_size,
    section_index, add_trace.
  run_monad. fold cyto.
  destruct (getitem (g_data w) _) as [x|e]; simpl; [|done].
  destruct (fetch x) as [img|e]; simpl; rewrite <- ?app_assoc; simpl; [|done].
  destruct (network cyto img None [[0; 1]]) as [[[[m f] s] d]|e]; simpl; done.
Qed.

(** ** Ranges *)

Lemma length_range a b : length (range a b) = Z.to_nat (b - a).
Proof. apply length_seqZ. Qed.

Lemma elem_of_range a b z : z ∈ range a b ↔ a ≤ z < b.
Proof. unfold range. rewrite elem_of_seqZ. lia. Qed.

Lemma lookup_range a b i z :
  range a b !! i = Some z ↔ z = a + Z.of_nat i ∧ a + Z.of_nat i < b.
Proof. unfold range. rewrite lookup_seqZ. lia. Qed.

Lemma range_empty a b : b ≤ a → range a b = [].
Proof. intros. apply seqZ_nil. lia. Qed.

Lemma range_increasing a b i j x y :
  range a b !! i = Some x → range a b !! j = Some y → (i < j)%nat → x < y.
Proof. rewrite !lookup_range. lia. Qed.

Lemma head_range a b : a < b → head (range a b) = Some a.
Proof.
  intros. rewrite head_lookup. apply lookup_range. lia.
Qed.

Lemma last_range a b : a < b → last (range a b) = Some (b - 1).
Proof.
  intros. rewrite last_lookup, length_range. apply lookup_range. lia.
Qed.

(** ** The graph builder *)

Lemma for_each_delayed zs acc w :
  for_each zs
    (fun z lazy_results =>
       lazy_result <- delayed (analyze network) z ;;
       ret (lazy_results ++ [lazy_result])) acc w =
  (Ok (acc ++ (analyze_task network <$> zs)), add_trace w (EvDelayed <$> zs)).
Proof.
  revert acc w. induction zs as [|z zs IH]; intros acc w; simpl.
  - by rewrite app_nil_r, add_trace_nil.
  - unfold bind at 1. unfold delayed, bind at 1. run_monad.
    rewrite IH. fold (add_trace w [EvDelayed z]).
    by rewrite add_trace_app, <- app_assoc.
Qed.

Lemma build_task_graph_run range_z w n :
  shape (g_data w) !! 2%nat = Some n →
  build_task_graph network range_z w =
  (Ok (analyze_task network <$> range (n `div` 2 - range_z) (n `div` 2 + range_z)),
   add_trace w (EvDelayed <$> range (n `div` 2 - range_z) (n `div` 2 + range_z))).
Proof.
  intros Hn. unfold build_task_graph, bind at 1, read_data.
  unfold bind at 1, lift, tuple_getitem. rewrite Hn.
  by rewrite for_each_delayed.
Qed.

Lemma build_task_graph_no_axis range_z w :
  shape (g_data w) !! 2%nat = None →
  build_task_graph network range_z w = (Raise TupleIndexError, w).
Proof.
  intros Hn. unfold build_task_graph, bind at 1, read_data.
  unfold bind at 1, lift, tuple_getitem. by rewrite Hn.
Qed.

Lemma coordinate_analyze_task (zs : list Z) :
  coordinate <$> (analyze_task network <$> zs) = zs.
Proof.
  rewrite <- list_fmap_compose. induction zs as [|z zs IH]; [done|].
  simpl. by f_equal.
Qed.

(** ** The scheduler *)

Lemma run_task_analyze z w :
  run_task (analyze_task network z) w =
  (analyze_value network (g_data w) z, add_trace w (analyze_events (g_data w) z)).
Proof. apply analyze_run. Qed.

Lemma execute_step zs i sched fin w :
  execute (analyze_task network <$> zs) (i :: sched) fin w =
  match zs !! i with
  | None => execute (analyze_task network <$> zs) sched fin w
  | Some z =>
      let w' := add_trace w (analyze_events (g_data w) z) in
      match analyze_value network (g_data w) z with
      | Ok r => execute (analyze_task network <$> zs) sched (<[i := r]> fin) w'
      | Raise e => (Raise e, w')
      end
  end.
Proof.
  cbn [execute]. rewrite list_lookup_fmap.
  destruct (zs !! i) as [z|]; cbn [fmap option_fmap option_map]; [|done].
  unfold bind. rewrite run_task_analyze. by destruct (analyze_value _ _ _).
Qed.

Lemma execute_g_data zs sched fin w :
  g_data (execute (analyze_task network <$> zs) sched fin w).2 = g_data w.
Proof.
  revert fin w. induction sched as [|i sched IH]; intros fin w; [done|].
  rewrite execute_step. destruct (zs !! i) as [z|]; simpl; [|apply IH].
  destruct (analyze_value _ _ _); simpl; [|done]. by rewrite IH.
Qed.

(** What [execute] leaves behind: on success every scheduled task has run
    and its output sits under its own position, all other positions are
    as before; on failure some scheduled task raised that very error. *)
Lemma execute_spec zs sched fin w :
  match (execute (analyze_task network <$> zs) sched fin w).1 with
  | Ok fin' =>
      (∀ i z, i ∈ sched → zs !! i = Some z →
         ∃ r, analyze_value network (g_data w) z = Ok r ∧ fin' !! i = Some r) ∧
      (∀ i, i ∉ sched ∨ zs !! i = None → fin' !! i = fin !! i)
  | Raise e =>
      ∃ i z, i ∈ sched ∧ zs !! i = Some z ∧
             analyze_value network (g_data w) z = Raise e
  end.
Proof.
  revert fin w. induction sched as [|i sched IH]; intros fin w.
  - simpl. split; [|done]. intros i z Hi. by apply elem_of_nil in Hi.
  - rewrite execute_step. destruct (zs !! i) as [z|] eqn:Hz; simpl.
    + destruct (analyze_value network (g_data w) z) as [r|e] eqn:Hv; simpl.
      * specialize (IH (<[i := r]> fin) (add_trace w (analyze_events (g_data w) z))).
        rewrite g_data_add_trace in IH.
        destruct (execute _ sched _ _).1 as [fin'|e].
        -- destruct IH as [IH1 IH2]. split.
           ++ intros j zj Hj Hzj. destruct (decide (j ∈ sched)) as [Hin|Hnin].
              ** by apply IH1.
              ** apply elem_of_cons in Hj as [->|Hj]; [|done].
                 exists r. split; [congruence|].
                 rewrite IH2 by auto. apply lookup_insert_eq.
           ++ intros j Hj. assert (j ≠ i ∧ j ∉ sched ∨ j ≠ i ∧ zs !! j = None)
                as Hj'.
              { destruct Hj as [Hj|Hj].
                - left. apply not_elem_of_cons in Hj. tauto.
                - right. split; [congruence|done]. }
              rewrite IH2 by tauto. apply lookup_insert_ne. intros ->; tauto.
        -- destruct IH as (j & zj & Hj & Hzj & He).
           exists j, zj. split; [by apply list_elem_of_further|done].
      * exists i, z. split; [apply list_elem_of_here|done].
    + specialize (IH fin w). destruct (execute _ sched _ _).1 as [fin'|e].
      * destruct IH as [IH1 IH2]. split.
        -- intros j zj Hj Hzj. apply elem_of_cons in Hj as [->|Hj]; [congruence|].
           by apply IH1.
        -- intros j Hj. apply IH2. destruct Hj as [Hj|Hj]; [|by right].
           left. apply not_elem_of_cons in Hj. tauto.
      * destruct IH as (j & zj & Hj & Hzj & He).
        exists j, zj. split; [by apply list_elem_of_further|done].
Qed.

Lemma compute_run tasks sched w :
  compute (Masks := Masks) tasks sched w =
  match execute tasks sched ∅ w with
  | (Ok fin, w') =>
      match repack (length tasks) fin with
      | Some results => (Ok results, w')
      | None => (Raise SchedulerError, w')
      end
  | (Raise e, w') => (Raise e, w')
  end.
Proof.
  unfold compute, bind. destruct (execute tasks sched ∅ w) as [[fin|e] w']; [|done].
  by destruct (repack _ _).
Qed.

Lemma compute_g_data zs sched w :
  g_data (compute (analyze_task network <$> zs) sched w).2 = g_data w.
Proof.
  rewrite compute_run. pose proof (execute_g_data zs sched ∅ w) as Hd.
  destruct (execute _ sched ∅ w) as [[fin|e] w']; simpl in *; [|done].
  by destruct (repack _ _).
Qed.

(** Whatever the schedule, a returned sequence has one entry per task. *)
Lemma compute_length tasks sched w results :
  (compute (Masks := Masks) tasks sched w).1 = Ok results →
  length results = length tasks.
Proof.
  rewrite compute_run. destruct (execute tasks sched ∅ w) as [[fin|e] w']; [|done].
  destruct (repack _ _) as [rs|] eqn:Hrs; simpl; [|done].
  intros [= ->]. apply length_mapM in Hrs. by rewrite length_seq in Hrs.
Qed.

Lemma scheduled zs sched i (z : Z) :
  sched ≡ₚ seq 0 (length zs) → zs !! i = Some z → i ∈ sched.
Proof.
  intros Hp Hz. rewrite Hp. apply elem_of_seq.
  apply lookup_lt_Some in Hz. lia.
Qed.

(** Under a schedule that runs every task once, [compute] succeeds exactly
    when every task does, and then returns the outputs in the order of the
    tasks. *)
Lemma compute_ok_iff zs sched w results :
  sched ≡ₚ seq 0 (length zs) →
  (compute (analyze_task network <$> zs) sched w).1 = Ok results ↔
  Forall2 (λ z r, analyze_value network (g_data w) z = Ok r) zs results.
Proof.
  intros Hp. rewrite compute_run, length_fmap.
  pose proof (execute_spec zs sched ∅ w) as Hs.
  destruct (execute _ sched ∅ w) as [[fin|e] w']; simpl in Hs.
  - destruct Hs as [Hs _].
    assert (∀ rs, repack (length zs) fin = Some rs ↔
                  Forall2 (λ z r, analyze_value network (g_data w) z = Ok r) zs rs)
      as Hrep.
    { intros rs. unfold repack. rewrite mapM_Some.
      rewrite !Forall2_same_length_lookup, length_seq. split.
      - intros [Hlen Hall]. split; [done|]. intros i z r Hz Hr.
        destruct (Hs i z) as (r' & Hv & Hf); [by eapply scheduled|done|].
        assert (seq 0 (length zs) !! i = Some i) as Hi.
        { apply lookup_lt_Some in Hz. by rewrite lookup_seq_lt. }
        specialize (Hall i i r Hi Hr). congruence.
      - intros [Hlen Hall]. split; [done|]. intros i j r Hj Hr.
        apply lookup_seq in Hj as [-> Hlt]. simpl.
        destruct (lookup_lt_is_Some_2 zs i Hlt) as [z Hz].
        destruct (Hs i z) as (r' & Hv & Hf); [by eapply scheduled|done|].
        specialize (Hall i z r Hz Hr). congruence. }
    destruct (repack _ _) as [rs|] eqn:Hrs; simpl.
    + split.
      * intros [= ->]. by apply Hrep.
      * intros Hall. apply Hrep in Hall. congruence.
    + split; [done|]. intros Hall. apply Hrep in Hall. congruence.
  - destruct Hs as (i & z & Hi & Hz & He). simpl. split; [done|].
    intros Hall. rewrite Forall2_same_length_lookup in Hall.
    destruct Hall as [Hlen Hall].
    assert (is_Some (results !! i)) as [r Hr].
    { apply lookup_lt_is_Some. rewrite <- Hlen. by eapply lookup_lt_Some. }
    specialize (Hall i z r Hz Hr). congruence.
Qed.

(** Under such a schedule, an exception out of [compute] is the exception
    of one of the tasks. *)
Lemma compute_raise zs sched w e :
  sched ≡ₚ seq 0 (length zs) →
  (compute (analyze_task network <$> zs) sched w).1 = Raise e →
  ∃ i z, zs !! i = Some z ∧ analyze_value network (g_data w) z = Raise e.
Proof.
  intros Hp. rewrite compute_run, length_fmap.
  pose proof (execute_spec zs sched ∅ w) as Hs.
  destruct (execute _ sched ∅ w) as [[fin|e'] w']; simpl in Hs.
  - destruct Hs as [Hs _].
    destruct (repack _ _) as [rs|] eqn:Hrs; simpl; [done|].
    intros _. exfalso. unfold repack in Hrs. apply mapM_None in Hrs.
    apply Exists_exists in Hrs as (i & Hi & Hnone).
    apply elem_of_seq in Hi.
    destruct (lookup_lt_is_Some_2 zs i) as [z Hz]; [lia|].
    destruct (Hs i z) as (r & _ & Hf); [by eapply scheduled|done|]. congruence.
  - simpl. intros [= ->]. destruct Hs as (i & z & _ & Hz & He). eauto.
Qed.


(** A task reads the global [data] when it runs, not when it is built: the
    outcome of a run is that of [analyze] on the array bound at that time. *)
Lemma tasks_read_data_when_run (zs : list Z) sched a w results :
  sched ≡ₚ seq 0 (length zs) →
  ((assign_data a ;;; compute (analyze_task network <$> zs) sched) w).1 = Ok results ↔
  Forall2 (λ z r, analyze_value network a z = Ok r) zs results.
Proof.
  intros Hp. unfold bind, assign_data. by rewrite compute_ok_iff.
Qed.


(** ** Tasks built by the notebook *)

Lemma build_task_graph_inv range_z w tasks w1 :
  build_task_graph network range_z w = (Ok tasks, w1) →
  ∃ n, shape (g_data w) !! 2%nat = Some n ∧
       tasks = analyze_task network <$>
                 range (n `div` 2 - range_z) (n `div` 2 + range_z) ∧
       w1 = add_trace w
              (EvDelayed <$> range (n `div` 2 - range_z) (n `div` 2 + range_z)).
Proof.
  destruct (shape (g_data w) !! 2%nat) as [n|] eqn:Hn.
  - rewrite (build_task_graph_run _ _ n Hn). intros [= <- <-]. by exists n.
  - by rewrite build_task_graph_no_axis.
Qed.

Lemma analyze_value_coordinate d z r :
  analyze_value network d z = Ok r → r.2 = z.
Proof.
  unfold analyze_value.
  destruct (getitem d _) as [x|]; simpl; [|done].
  destruct (fetch x) as [img|]; simpl; [|done].
  destruct (network _ _ _ _) as [out|]; simpl; [|done].
  by intros [= <-].
Qed.

Lemma all_ok_results d (zs : list Z) :
  (∀ z, z ∈ zs → is_Ok (analyze_value network d z)) →
  ∃ results, Forall2 (λ z r, analyze_value network d z = Ok r) zs results.
Proof.
  induction zs as [|z zs IH]; intros Hall.
  - exists []. constructor.
  - destruct (Hall z) as [r Hr]; [apply list_elem_of_here|].
    destruct IH as [rs Hrs].
    { intros z' Hz'. apply Hall. by apply list_elem_of_further. }
    exists (r :: rs). by constructor.
Qed.

Lemma filter_work_delayed (zs : list Z) :
  filter is_work (EvDelayed <$> zs) = [].
Proof.
  induction zs as [|z zs IH]; [done|].
  rewrite fmap_cons, filter_cons_False; [done|]. simpl. tauto.
Qed.

(** C1. When no task of a built graph fails, [compute] returns one result
    per task, and the result at position [i] carries the coordinate of the
    task submitted at position [i], whatever order [sched] the tasks were
    run in. *)
Theorem compute_keeps_submission_order range_z w tasks w1 sched :
  build_task_graph network range_z w = (Ok tasks, w1) →
  sched ≡ₚ seq 0 (length tasks) →
  (∀ t, t ∈ tasks → is_Ok (run_task t w1).1) →
  ∃ results,
    (compute tasks sched w1).1 = Ok results ∧
    length results = length tasks ∧
    ∀ i t, tasks !! i = Some t →
           ∃ masks, results !! i = Some (masks, coordinate t).
Proof.
  intros Hb Hp Hok. apply build_task_graph_inv in Hb as (n & Hn & -> & ->).
  set (zs := range _ _) in *. rewrite length_fmap in Hp.
  destruct (all_ok_results (g_data w) zs) as [rs Hrs].
  { intros z Hz. specialize (Hok (analyze_task network z)).
    rewrite run_task_analyze in Hok. apply Hok.
    apply list_elem_of_fmap. eauto. }
  exists rs. split; [by apply compute_ok_iff|].
  rewrite length_fmap. split; [symmetry; by eapply Forall2_length|].
  intros i t Ht. rewrite list_lookup_fmap in Ht.
  destruct (zs !! i) as [z|] eqn:Hz; [|done]. injection Ht as <-.
  destruct (Forall2_lookup_l _ _ _ _ _ Hrs Hz) as (r & Hr & Hv).
  apply analyze_value_coordinate in Hv. destruct r as [m z']; simpl in Hv.
  subst z'. by exists m.
Qed.

(** C2. For a radius [range_z >= 0] the builder returns [2 * range_z]
    tasks whose coordinates are strictly increasing and are exactly the
    integers of [[center - range_z, center + range_z)], in that order,
    where [center] is half the extent of the z axis. *)
Theorem build_task_graph_coordinates range_z w n :
  shape (g_data w) !! 2%nat = Some n →
  0 ≤ range_z →
  ∃ tasks,
    (build_task_graph network range_z w).1 = Ok tasks ∧
    Z.of_nat (length tasks) = 2 * range_z ∧
    coordinate <$> tasks = range (n `div` 2 - range_z) (n `div` 2 + range_z) ∧
    (∀ i j ti tj, tasks !! i = Some ti → tasks !! j = Some tj → (i < j)%nat →
                  coordinate ti < coordinate tj) ∧
    (∀ z, z ∈ coordinate <$> tasks ↔
          n `div` 2 - range_z ≤ z < n `div` 2 + range_z).
Proof.
  intros Hn Hr. rewrite (build_task_graph_run _ _ n Hn). simpl.
  eexists. split; [done|]. rewrite coordinate_analyze_task.
  split; [rewrite length_fmap, length_range; lia|].
  split; [done|]. split.
  - intros i j ti tj. rewrite !list_lookup_fmap.
    destruct (range _ _ !! i) as [zi|] eqn:Hi; [|done].
    destruct (range _ _ !! j) as [zj|] eqn:Hj; [|done].
    intros [= <-] [= <-] Hij. simpl. by eapply range_increasing.
  - intros z. apply elem_of_range.
Qed.

(** C3. Building the graph is lazy: it leaves the global array and the
    store as they were and appends to the trace nothing but one
    [EvDelayed] per coordinate, so the number of fetches, calls of [analyze]
    and runs of the network is what it was before; the work done is one
    recorded invocation per element of the range. *)
Theorem build_task_graph_is_lazy range_z w :
  let out := build_task_graph network range_z w in
  g_data out.2 = g_data w ∧
  s3 out.2 = s3 w ∧
  work_events (trace out.2) = work_events (trace w) ∧
  ∃ zs, trace out.2 = trace w ++ (EvDelayed <$> zs) ∧
        match out.1 with
        | Ok tasks =>
            coordinate <$> tasks = zs ∧ length zs = Z.to_nat (2 * range_z)
        | Raise _ => zs = []
        end.
Proof.
  destruct (shape (g_data w) !! 2%nat) as [n|] eqn:Hn.
  - rewrite (build_task_graph_run _ _ n Hn). simpl.
    split; [done|]. split; [done|]. split.
    + unfold work_events. by rewrite filter_app, filter_work_delayed, app_nil_r.
    + eexists. split; [done|]. rewrite coordinate_analyze_task.
      split; [done|]. rewrite length_range. f_equal. lia.
  - rewrite build_task_graph_no_axis by done. simpl.
    split; [done|]. split; [done|]. split; [done|].
    exists []. by rewrite app_nil_r.
Qed.

Lemma execute_no_tasks sched fin w :
  execute (Masks := Masks) [] sched fin w = (Ok fin, w).
Proof. induction sched as [|i sched IH]; [done|]. simpl. apply IH. Qed.

(** C5. With radius 0 the builder returns no task and touches nothing, and
    running the empty sequence returns the empty sequence and leaves the
    state, hence the trace, as it was: nothing is fetched. *)
Theorem radius_zero_is_empty w n :
  shape (g_data w) !! 2%nat = Some n →
  build_task_graph network 0 w = (Ok [], w) ∧
  ∀ sched, compute (Masks := Masks) [] sched w = (Ok [], w).
Proof.
  intros Hn. split.
  - rewrite (build_task_graph_run _ _ n Hn).
    rewrite range_empty by lia. simpl. by rewrite add_trace_nil.
  - intros sched. rewrite compute_run, execute_no_tasks. done.
Qed.

(** C6. Running the same tasks a second time, after the first run and
    under any other schedule, gives the same results: the array is the
    same (no task assigns [data]) and the network is a function. *)
Theorem compute_twice (zs : list Z) s1 s2 w :
  s1 ≡ₚ seq 0 (length zs) →
  s2 ≡ₚ seq 0 (length zs) →
  let tasks := analyze_task network <$> zs in
  let run1 := compute tasks s1 w in
  let run2 := compute tasks s2 run1.2 in
  g_data run1.2 = g_data w ∧
  ∀ results, run1.1 = Ok results ↔ run2.1 = Ok results.
Proof.
  intros H1 H2 tasks run1 run2.
  assert (g_data run1.2 = g_data w) as Hd by apply compute_g_data.
  split; [done|]. intros results. unfold run2, run1, tasks.
  rewrite !compute_ok_iff by done. by rewrite compute_g_data.
Qed.

(** C7. The policy is fail-fast. If one task of a built graph raises and
    all others succeed, [compute] raises that task's exception, under every
    schedule. And in general [compute] either raises or returns one result
    per task, each the output of the task at its position: no result is
    dropped or repeated. *)
Theorem compute_fail_fast range_z w tasks w1 sched k tk e :
  build_task_graph network range_z w = (Ok tasks, w1) →
  sched ≡ₚ seq 0 (length tasks) →
  tasks !! k = Some tk →
  (run_task tk w1).1 = Raise e →
  (∀ j t, j ≠ k → tasks !! j = Some t → is_Ok (run_task t w1).1) →
  (compute tasks sched w1).1 = Raise e ∧
  (∀ sched' w',
     match (compute tasks sched' w').1 with
     | Ok results => length results = length tasks
     | Raise _ => True
     end) ∧
  (∀ sched' w' results,
     sched' ≡ₚ seq 0 (length tasks) →
     (compute tasks sched' w').1 = Ok results →
     Forall2 (λ t r, (run_task t w').1 = Ok r) tasks results).
Proof.
  intros Hb Hp Hk He Hothers.
  apply build_task_graph_inv in Hb as (n & Hn & -> & ->).
  set (zs := range _ _) in *. rewrite length_fmap in *.
  set (w1 := add_trace w _) in *.
  assert (g_data w1 = g_data w) as Hd by done.
  rewrite list_lookup_fmap in Hk.
  destruct (zs !! k) as [zk|] eqn:Hzk; [|done]. injection Hk as <-.
  rewrite run_task_analyze in He. simpl in He.
  split; [|split].
  - destruct (compute _ sched w1).1 as [rs|e'] eqn:Hc.
    + apply compute_ok_iff in Hc; [|done].
      destruct (Forall2_lookup_l _ _ _ _ _ Hc Hzk) as (r & _ & Hv).
      rewrite Hd in Hv. congruence.
    + apply compute_raise in Hc as (i & z & Hz & Hv); [|done].
      rewrite Hd in Hv.
      destruct (decide (i = k)) as [->|Hne]; [congruence|].
      destruct (Hothers i (analyze_task network z) Hne) as [r Hr].
      { by rewrite list_lookup_fmap, Hz. }
      rewrite run_task_analyze in Hr. simpl in Hr. congruence.
  - intros sched' w'.
    destruct (compute _ sched' w').1 as [rs|] eqn:Hc; [|done].
    apply compute_length in Hc. by rewrite length_fmap in *.
  - intros sched' w' results Hp' Hc. apply compute_ok_iff in Hc; [|done].
    apply Forall2_fmap_l. eapply Forall2_impl; [exact Hc|].
    intros z r Hv. change ((run_task (analyze_task network z) w').1 = Ok r).
    by rewrite run_task_analyze.
Qed.

(** C10. The builder is given the radius only. The centre is half the z
    extent of the global array: the coordinates are
    [range(shape[2] // 2 - r, shape[2] // 2 + r)], so for a radius that
    yields any coordinate the first is [shape[2] // 2 - r] and the last is
    [shape[2] // 2 + r - 1]. *)
Theorem build_task_graph_centre range_z w n :
  shape (g_data w) !! 2%nat = Some n →
  ∃ tasks,
    (build_task_graph network range_z w).1 = Ok tasks ∧
    coordinate <$> tasks = range (n `div` 2 - range_z) (n `div` 2 + range_z) ∧
    (0 < range_z →
     head (coordinate <$> tasks) = Some (n `div` 2 - range_z) ∧
     last (coordinate <$> tasks) = Some (n `div` 2 + range_z - 1)).
Proof.
  intros Hn. rewrite (build_task_graph_run _ _ n Hn). simpl.
  eexists. split; [done|]. rewrite coordinate_analyze_task. split; [done|].
  intros Hr. split; [apply head_range | apply last_range]; lia.
Qed.

(** ** Indexing the z axis of a TCZYX array *)

Lemma fmap_bind_list {A B C} (f : B → C) (g : A → list B) (l : list A) :
  f <$> (l ≫= g) = l ≫= (λ x, f <$> g x).
Proof.
  induction l as [|a l IH]; [done|].
  by rewrite !bind_cons, fmap_app, IH.
Qed.

Lemma positions_section nt nc nz ny nx z :
  positions (section_index z) [nt; nc; nz; ny; nx] = section_positions nc ny nx z.
Proof.
  unfold section_positions, section_index. cbn [positions axis_positions].
  rewrite bind_singleton, fmap_bind_list.
  apply list_bind_ext; [|done]. intros c.
  rewrite bind_singleton, !fmap_bind_list.
  apply list_bind_ext; [|done]. intros y.
  rewrite !fmap_bind_list.
  apply list_bind_ext; [|done]. intros x. done.
Qed.

Lemma elem_of_section_positions nc ny nx z p :
  p ∈ section_positions nc ny nx z ↔
  ∃ c y x, p = [0; c; z; y; x] ∧ 0 ≤ c < nc ∧ 0 ≤ y < ny ∧ 0 ≤ x < nx.
Proof.
  unfold section_positions. rewrite list_elem_of_bind. split.
  - intros (c & Hp & Hc). apply list_elem_of_bind in Hp as (y & Hp & Hy).
    apply list_elem_of_bind in Hp as (x & Hp & Hx).
    apply list_elem_of_singleton in Hp. apply elem_of_range in Hc, Hy, Hx.
    exists c, y, x. auto.
  - intros (c & y & x & -> & Hc & Hy & Hx). exists c.
    split; [|by apply elem_of_range].
    apply list_elem_of_bind. exists y. split; [|by apply elem_of_range].
    apply list_elem_of_bind. exists x. split; [|by apply elem_of_range].
    by apply list_elem_of_singleton.
Qed.

Lemma getitem_section d nt nc nz ny nx z :
  shape d = [nt; nc; nz; ny; nx] →
  getitem d (section_index z) =
  if nt <=? 0 then Raise (IndexError 0 0 nt)
  else if nz <=? z then Raise (IndexError 2 z nz)
  else if z <? - nz then Raise (IndexError 2 z nz)
  else Ok {| base := d; sel := section_index (wrap z nz) |}.
Proof.
  intros Hs. unfold getitem, normalize_index, section_index, wrap.
  rewrite Hs. simpl.
  destruct (nt <=? 0) eqn:Ht; simpl; [done|].
  assert ((0 <? - nt) = false) as -> by lia. simpl.
  destruct (nz <=? z); simpl; [done|].
  destruct (z <? - nz); simpl; [done|].
  by destruct (z <? 0).
Qed.

Lemma getitem_section_ok d nt nc nz ny nx z :
  shape d = [nt; nc; nz; ny; nx] → 0 < nt → - nz ≤ z < nz →
  getitem d (section_index z) = Ok {| base := d; sel := section_index (wrap z nz) |}.
Proof.
  intros Hs Ht Hz. rewrite (getitem_section _ _ _ _ _ _ _ Hs).
  assert ((nt <=? 0) = false) as -> by lia.
  assert ((nz <=? z) = false) as -> by lia.
  by assert ((z <? - nz) = false) as -> by lia.
Qed.

Lemma fetch_section d nt nc nz ny nx z :
  shape d = [nt; nc; nz; ny; nx] →
  fetch {| base := d; sel := section_index z |} =
  rmap (λ vs, {| dshape := [nc; ny; nx]; dvals := vs |})
       (read_voxels (voxel d) (section_positions nc ny nx z)).
Proof.
  intros Hs. unfold fetch. cbn [base sel]. rewrite Hs.
  by rewrite positions_section.
Qed.

(** C9. A task for the coordinate [z] hands [model.eval] the lazy slice
    [data[0, :, z, :, :]]: timepoint 0 only, every channel, the one section
    [z] (counted from the end when [z] is negative) and every row and
    column of it. Whatever is requested while the task runs is that
    selector, whatever image the network sees is that section, of shape
    (C, Y, X), and the task returns the network's first output on it paired
    with [z]. The global array and the store are left as they were. *)
Theorem analyze_reads_one_section z w nt nc nz ny nx :
  shape (g_data w) = [nt; nc; nz; ny; nx] →
  0 < nt →
  - nz ≤ z < nz →
  let section := section_positions nc ny nx (wrap z nz) in
  let pixels := read_voxels (voxel (g_data w)) section in
  let image vs := {| dshape := [nc; ny; nx]; dvals := vs |} in
  let out := analyze network z w in
  getitem (g_data w) (section_index z) =
    Ok {| base := g_data w; sel := section_index (wrap z nz) |} ∧
  out.1 =
    rbind pixels (λ vs,
      rbind (network cyto (image vs) None [[0; 1]]) (λ o, Ok (o.1.1.1, z))) ∧
  g_data out.2 = g_data w ∧
  s3 out.2 = s3 w ∧
  (∃ new,
     trace out.2 = trace w ++ new ∧
     EvFetch (section_index (wrap z nz)) ∈ new ∧
     Forall (λ e, e = EvCall z ∨
                  e = EvFetch (section_index (wrap z nz)) ∨
                  ∃ vs, pixels = Ok vs ∧ e = EvEval (image vs)) new) ∧
  ∀ p, p ∈ section ↔
       ∃ c y x, p = [0; c; wrap z nz; y; x] ∧
                0 ≤ c < nc ∧ 0 ≤ y < ny ∧ 0 ≤ x < nx.
Proof.
  intros Hs Ht Hz section pixels image out.
  pose proof (getitem_section_ok _ _ _ _ _ _ _ Hs Ht Hz) as Hget.
  split; [done|]. unfold out. rewrite analyze_run. cbn [fst snd].
  unfold analyze_value, analyze_events. rewrite Hget. cbn [rbind sel].
  rewrite (fetch_section _ _ _ _ _ _ _ Hs). fold section pixels.
  split; [by destruct pixels|]. split; [done|]. split; [done|].
  split; [|intros p; apply elem_of_section_positions].
  eexists. split; [done|].
  split; [destruct pixels; apply list_elem_of_further, list_elem_of_here|].
  apply Forall_forall. intros e He. destruct pixels as [vs|err];
    repeat (apply elem_of_cons in He as [->|He]; [by eauto 6|]);
    by apply elem_of_nil in He.
Qed.

(** C8, as the code has it. The builder validates nothing: whatever the
    radius it returns a task for every integer of the range, none clamped
    or dropped. A coordinate [z >= shape[2]] or [z < -shape[2]] makes its
    task raise IndexError when it runs, before anything is fetched, so a
    run over a range holding such a coordinate raises. A coordinate with
    [-shape[2] <= z < 0] is no error: its task reads section
    [z + shape[2]] and returns that output tagged with [z]. *)
Theorem out_of_range_is_deferred_or_wrapped range_z w nt nc nz ny nx :
  shape (g_data w) = [nt; nc; nz; ny; nx] →
  let zs := range (nz `div` 2 - range_z) (nz `div` 2 + range_z) in
  let tasks := analyze_task network <$> zs in
  let w1 := add_trace w (EvDelayed <$> zs) in
  build_task_graph network range_z w = (Ok tasks, w1) ∧
  (∀ z w', g_data w' = g_data w → nz ≤ z ∨ z < - nz →
     analyze network z w' =
     (Raise (if nt <=? 0 then IndexError 0 0 nt else IndexError 2 z nz),
      add_trace w' [EvCall z])) ∧
  (∀ z sched, z ∈ zs → nz ≤ z ∨ z < - nz →
     sched ≡ₚ seq 0 (length tasks) →
     ∃ e, (compute tasks sched w1).1 = Raise e) ∧
  (∀ z w', g_data w' = g_data w → - nz ≤ z < 0 →
     (analyze network z w').1 =
     rmap (λ r, (r.1, z)) (analyze network (z + nz) w').1).
Proof.
  intros Hs zs tasks w1.
  assert (∀ z, nz ≤ z ∨ z < - nz →
    getitem (g_data w) (section_index z) =
    Raise (if nt <=? 0 then IndexError 0 0 nt else IndexError 2 z nz)) as Hout.
  { intros z Hz. rewrite (getitem_section _ _ _ _ _ _ _ Hs).
    destruct (nt <=? 0); [done|].
    destruct (Z.leb_spec nz z); [done|].
    by assert ((z <? - nz) = true) as -> by lia. }
  split; [|split; [|split]].
  - apply build_task_graph_run. by rewrite Hs.
  - intros z w' Hd Hz. rewrite analyze_run, Hd.
    unfold analyze_value, analyze_events. by rewrite Hout.
  - intros z sched Hin Hz Hp. unfold tasks in *. rewrite length_fmap in Hp.
    destruct (compute _ sched w1).1 as [rs|e] eqn:Hc; [|by exists e].
    apply compute_ok_iff in Hc; [|done].
    apply list_elem_of_lookup in Hin as [i Hi].
    destruct (Forall2_lookup_l _ _ _ _ _ Hc Hi) as (r & _ & Hv).
    unfold analyze_value in Hv. simpl in Hv. by rewrite Hout in Hv.
  - intros z w' Hd Hz. rewrite !analyze_run, Hd. simpl.
    unfold analyze_value. rewrite !(getitem_section _ _ _ _ _ _ _ Hs).
    destruct (nt <=? 0); [done|].
    assert ((nz <=? z) = false) as -> by lia.
    assert ((z <? - nz) = false) as -> by lia.
    assert ((nz <=? z + nz) = false) as -> by lia.
    assert ((z + nz <? - nz) = false) as -> by lia.
    assert (wrap z nz = z + nz) as -> by (unfold wrap; by destruct (Z.ltb_spec z 0); lia).
    assert (wrap (z + nz) nz = z + nz) as -> by (unfold wrap; by destruct (Z.ltb_spec (z + nz) 0); lia).
    cbn [rbind]. destruct (fetch _) as [img|]; [|done]. cbn [rbind].
    by destruct (network _ _ _ _).
Qed.

End Facts.

(** * The examples *)

Lemma example_build :
  build_task_graph times_ten 2 example_world = (Ok example_tasks, example_built).
Proof. reflexivity. Qed.

Lemma example_values :
  Forall2 (λ z r, analyze_value times_ten (g_data example_built) z = Ok r)
    [3; 4; 5; 6] [(30, 3); (40, 4); (50, 5); (60, 6)].
Proof. repeat constructor. Qed.

(** The tasks ran in the order 6, 4, 3, 5; the results come back in the
    order in which the tasks were submitted. *)
Example example_run_out_of_order :
  let run := compute example_tasks [3; 1; 0; 2]%nat example_built in
  called (trace run.2) = [6; 4; 3; 5] ∧
  run.1 = Ok [(30, 3); (40, 4); (50, 5); (60, 6)].
Proof. split; reflexivity. Qed.


(** With no diameter given the model makes its three passes: the section
    of a task is requested three times, and the result is what one read of
    it gives. *)
Example example_task_reads_thrice :
  let out := analyze times_ten 3 example_world in
  fetched (trace out.2) = replicate 3 (section_index 3) ∧ out.1 = Ok (30, 3).
Proof. split; reflexivity. Qed.

(** C4. End to end: on an array of shape (1, 2, 10, 4, 4) whose section [z]
    holds the value [z], with a model that returns ten times that value,
    the graph of radius 2 (centre 10 // 2 = 5) run under any schedule
    yields [(30, 3); (40, 4); (50, 5); (60, 6)], in submission order. *)
Theorem end_to_end sched :
  sched ≡ₚ seq 0 4 →
  ∃ tasks w1,
    build_task_graph times_ten 2 example_world = (Ok tasks, w1) ∧
    (compute tasks sched w1).1 = Ok [(30, 3); (40, 4); (50, 5); (60, 6)].
Proof.
  intros Hp. exists example_tasks, example_built. split; [apply example_build|].
  unfold example_tasks. apply compute_ok_iff; [done|]. apply example_values.
Qed.

Lemma end_to_end_witness :
  [3; 1; 0; 2]%nat ≡ₚ seq 0 4 ∧
  ∃ tasks w1,
    build_task_graph times_ten 2 example_world = (Ok tasks, w1) ∧
    (compute tasks [3; 1; 0; 2]%nat w1).1 = Ok [(30, 3); (40, 4); (50, 5); (60, 6)].
Proof.
  assert ([3; 1; 0; 2]%nat ≡ₚ seq 0 4) as Hp by (simpl; solve_Permutation).
  split; [exact Hp|]. exact (end_to_end [3; 1; 0; 2]%nat Hp).
Defined.

Lemma compute_keeps_submission_order_witness :
  ∃ results,
    (compute example_tasks [3; 1; 0; 2]%nat example_built).1 = Ok results ∧
    length results = length example_tasks ∧
    ∀ i t, example_tasks !! i = Some t →
           ∃ masks, results !! i = Some (masks, coordinate t).
Proof.
  apply (compute_keeps_submission_order times_ten 2 example_world).
  - reflexivity.
  - simpl. solve_Permutation.
  - intros t Ht. unfold example_tasks in Ht.
    rewrite !fmap_cons in Ht.
    repeat (apply elem_of_cons in Ht as [->|Ht]; [eexists; reflexivity|]).
    by apply elem_of_nil in Ht.
Defined.

Lemma build_task_graph_coordinates_witness :
  ∃ tasks,
    (build_task_graph times_ten 2 example_world).1 = Ok tasks ∧
    Z.of_nat (length tasks) = 2 * 2 ∧
    coordinate <$> tasks = range (10 `div` 2 - 2) (10 `div` 2 + 2) ∧
    (∀ i j ti tj, tasks !! i = Some ti → tasks !! j = Some tj → (i < j)%nat →
                  coordinate ti < coordinate tj) ∧
    (∀ z, z ∈ coordinate <$> tasks ↔ 10 `div` 2 - 2 ≤ z < 10 `div` 2 + 2).
Proof.
  apply (build_task_graph_coordinates times_ten 2 example_world 10).
  - reflexivity.
  - lia.
Defined.

Lemma radius_zero_is_empty_witness :
  build_task_graph times_ten 0 example_world = (Ok [], example_world) ∧
  ∀ sched, compute (Masks := Z) [] sched example_world = (Ok [], example_world).
Proof.
  apply (radius_zero_is_empty times_ten example_world 10). reflexivity.
Defined.

Lemma compute_twice_witness :
  let tasks := analyze_task times_ten <$> [3; 4; 5; 6] in
  let run1 := compute tasks [3; 1; 0; 2]%nat example_built in
  let run2 := compute tasks [0; 1; 2; 3]%nat run1.2 in
  g_data run1.2 = g_data example_built ∧
  ∀ results, run1.1 = Ok results ↔ run2.1 = Ok results.
Proof.
  apply (compute_twice times_ten [3; 4; 5; 6] [3; 1; 0; 2]%nat [0; 1; 2; 3]%nat).
  - simpl. solve_Permutation.
  - reflexivity.
Defined.

Lemma build_task_graph_centre_witness :
  ∃ tasks,
    (build_task_graph times_ten 2 example_world).1 = Ok tasks ∧
    coordinate <$> tasks = range (10 `div` 2 - 2) (10 `div` 2 + 2) ∧
    head (coordinate <$> tasks) = Some (10 `div` 2 - 2) ∧
    last (coordinate <$> tasks) = Some (10 `div` 2 + 2 - 1).
Proof.
  destruct (build_task_graph_centre times_ten 2 example_world 10)
    as (tasks & Hb & Hc & Hfl); [reflexivity|].
  exists tasks. split; [done|]. split; [done|]. apply Hfl. lia.
Defined.

Lemma compute_fail_fast_witness :
  let tasks := analyze_task (times_ten_except 4) <$> [3; 4; 5; 6] in
  (compute tasks [3; 1; 0; 2]%nat example_built).1 = Raise (OperationError 4) ∧
  (∀ sched' w',
     match (compute tasks sched' w').1 with
     | Ok results => length results = length tasks
     | Raise _ => True
     end) ∧
  (∀ sched' w' results,
     sched' ≡ₚ seq 0 (length tasks) →
     (compute tasks sched' w').1 = Ok results →
     Forall2 (λ t r, (run_task t w').1 = Ok r) tasks results).
Proof.
  apply (compute_fail_fast (times_ten_except 4) 2 example_world
           (analyze_task (times_ten_except 4) <$> [3; 4; 5; 6]) example_built
           [3; 1; 0; 2]%nat 1%nat (analyze_task (times_ten_except 4) 4)
           (OperationError 4)).
  - reflexivity.
  - simpl. solve_Permutation.
  - reflexivity.
  - reflexivity.
  - intros j t Hj Ht.
    destruct j as [|[|[|[|j]]]]; simpl in Ht; try discriminate; try lia;
      injection Ht as <-; eexists; reflexivity.
Defined.

Lemma analyze_reads_one_section_witness :
  getitem (g_data example_world) (section_index 3) =
    Ok {| base := g_data example_world; sel := section_index 3 |} ∧
  (analyze times_ten 3 example_world).1 = Ok (30, 3) ∧
  ∀ p, p ∈ section_positions 2 4 4 3 ↔
       ∃ c y x, p = [0; c; 3; y; x] ∧ 0 ≤ c < 2 ∧ 0 ≤ y < 4 ∧ 0 ≤ x < 4.
Proof.
  destruct (analyze_reads_one_section times_ten 3 example_world 1 2 10 4 4)
    as (Hget & Hval & _ & _ & _ & Hpos); [reflexivity|lia|lia|].
  split; [exact Hget|]. split; [rewrite Hval; reflexivity|exact Hpos].
Defined.

Lemma out_of_range_is_deferred_or_wrapped_witness :
  build_task_graph times_ten 4 odd_world =
    (Ok (analyze_task times_ten <$> range (-2) 6),
     add_trace odd_world (EvDelayed <$> range (-2) 6)) ∧
  analyze times_ten 5 odd_world =
    (Raise (IndexError 2 5 5), add_trace odd_world [EvCall 5]) ∧
  (∃ e, (compute (analyze_task times_ten <$> range (-2) 6) (seq 0 8)
           (add_trace odd_world (EvDelayed <$> range (-2) 6))).1 = Raise e) ∧
  (analyze times_ten (-1) odd_world).1 =
    rmap (λ r, (r.1, -1)) (analyze times_ten 4 odd_world).1.
Proof.
  destruct (out_of_range_is_deferred_or_wrapped times_ten 4 odd_world 1 2 5 4 4)
    as (Hb & Herr & Hrun & Hwrap); [reflexivity|].
  split; [exact Hb|]. split; [|split].
  - apply (Herr 5 odd_world); [reflexivity|lia].
  - apply (Hrun 5 (seq 0 8)); [apply elem_of_range; by vm_compute|lia|reflexivity].
  - apply (Hwrap (-1) odd_world); [reflexivity|lia].
Defined.

(** C8 as stated fails on an array with five sections and radius 3: the
    range is [-1, 5), the coordinate -1 lies outside [0, 5), and yet the run
    raises nothing; the task for -1 returns the output of section 4. *)
Lemma negative_coordinate_raises_nothing :
  let built := build_task_graph times_ten 3 odd_world in
  ∃ tasks,
    built.1 = Ok tasks ∧
    coordinate <$> tasks = [-1; 0; 1; 2; 3; 4] ∧
    ¬ (0 ≤ -1 < 5) ∧
    (compute tasks (seq 0 6) built.2).1 =
      Ok [(40, -1); (0, 0); (10, 1); (20, 2); (30, 3); (40, 4)].
Proof.
  exists (analyze_task times_ten <$> [-1; 0; 1; 2; 3; 4]).
  split; [reflexivity|]. split; [reflexivity|]. split; [lia|].
  vm_compute. reflexivity.
Qed.

(** * Edge cases and frame properties of the pipeline *)

Section Edges.

Context {Masks Flows Styles Diams : Type}.
Variable network :
  Cellpose -> Dense -> option Z -> list (list Z) ->
  result (Masks * Flows * Styles * Diams).

(** X2. A radius that is zero or negative is accepted: the range is empty, no
    task is recorded and the state is left as it was. *)
Theorem build_task_graph_nonpositive_radius range_z w n :
  shape (g_data w) !! 2%nat = Some n →
  range_z ≤ 0 →
  build_task_graph network range_z w = (Ok [], w).
Proof.
  intros Hn Hr. rewrite (build_task_graph_run _ _ _ n Hn).
  rewrite range_empty by lia. simpl. by rewrite add_trace_nil.
Qed.

(** X3. On an array with fewer than three axes the builder raises at
    [data.shape[2]], whatever the radius, and records nothing. *)
Theorem build_task_graph_needs_z_axis range_z w :
  (length (shape (g_data w)) < 3)%nat →
  build_task_graph network range_z w = (Raise TupleIndexError, w).
Proof.
  intros Hlen. apply build_task_graph_no_axis.
  apply lookup_ge_None. lia.
Qed.

Lemma getitem_too_few_axes d z :
  (length (shape d) < 5)%nat →
  getitem d (section_index z) = Raise TooManyIndices.
Proof.
  intros Hlen. unfold getitem, normalize_index, section_index.
  replace (length (shape d) - length [Int 0; FullSlice; Int z; FullSlice; FullSlice])%nat
    with 0%nat by (simpl; lia).
  rewrite app_nil_r.
  by assert ((length (shape d) <? length [Int 0; FullSlice; Int z; FullSlice; FullSlice])%nat
             = true) as -> by (apply Nat.ltb_lt; simpl; lia).
Qed.

(** X4. On an array with three or four axes the builder succeeds, but every
    task raises at [data[t, :, z, :, :]] (five indices are too many) before
    anything is fetched; a run over a non-empty graph therefore raises that
    error under every schedule. *)
Theorem too_few_axes_fail_at_run range_z w n sched :
  (length (shape (g_data w)) < 5)%nat →
  shape (g_data w) !! 2%nat = Some n →
  let zs := range (n `div` 2 - range_z) (n `div` 2 + range_z) in
  let tasks := analyze_task network <$> zs in
  let w1 := add_trace w (EvDelayed <$> zs) in
  build_task_graph network range_z w = (Ok tasks, w1) ∧
  (∀ z w', g_data w' = g_data w →
     analyze network z w' = (Raise TooManyIndices, add_trace w' [EvCall z])) ∧
  (0 < range_z → sched ≡ₚ seq 0 (length tasks) →
     (compute tasks sched w1).1 = Raise TooManyIndices).
Proof.
  intros Hlen Hn zs tasks w1. split; [by apply build_task_graph_run|].
  assert (∀ z, analyze_value network (g_data w) z = Raise TooManyIndices) as Hv.
  { intros z. unfold analyze_value. by rewrite getitem_too_few_axes. }
  split.
  - intros z w' Hd. rewrite analyze_run, Hd, Hv.
    unfold analyze_events. by rewrite getitem_too_few_axes.
  - intros Hr Hp. unfold tasks in *. rewrite length_fmap in Hp.
    destruct (compute _ sched w1).1 as [rs|e] eqn:Hc.
    + apply compute_ok_iff in Hc; [|done]. exfalso.
      assert (is_Some (zs !! 0%nat)) as [z Hz].
      { apply lookup_lt_is_Some. unfold zs. rewrite length_range. lia. }
      destruct (Forall2_lookup_l _ _ _ _ _ Hc Hz) as (r & _ & Hr').
      simpl in Hr'. by rewrite Hv in Hr'.
    + apply compute_raise in Hc as (i & z & _ & He); [|done].
      simpl in He. rewrite Hv in He. congruence.
Qed.

(** X5. The coordinates are fixed when the graph is built, the pixels are read
    when it runs: if [data] is assigned another array in between, the
    tasks analyse the new array at coordinates centred on the old one. *)
Theorem reassigned_data_is_analysed range_z w n b sched results :
  shape (g_data w) !! 2%nat = Some n →
  sched ≡ₚ seq 0 (Z.to_nat (2 * range_z)) →
  ((tasks <- build_task_graph network range_z ;;
    assign_data b ;;;
    compute tasks sched) w).1 = Ok results ↔
  Forall2 (λ z r, analyze_value network b z = Ok r)
    (range (n `div` 2 - range_z) (n `div` 2 + range_z)) results.
Proof.
  intros Hn Hp. unfold bind at 1. rewrite (build_task_graph_run _ _ _ n Hn).
  unfold bind, assign_data. rewrite compute_ok_iff; [done|].
  rewrite length_range. by replace (n `div` 2 + range_z - (n `div` 2 - range_z))
    with (2 * range_z) by lia.
Qed.

(** X6. A run returns exactly when every task succeeds; otherwise it raises,
    and what it raises is the exception of one of the tasks, however many
    of them fail. *)
Theorem compute_returns_iff_all_succeed (zs : list Z) sched w :
  sched ≡ₚ seq 0 (length zs) →
  let out := (compute (analyze_task network <$> zs) sched w).1 in
  (is_Ok out ↔ ∀ z, z ∈ zs → is_Ok (analyze_value network (g_data w) z)) ∧
  (∀ e, out = Raise e →
        ∃ z, z ∈ zs ∧ analyze_value network (g_data w) z = Raise e).
Proof.
  intros Hp out. split.
  - split.
    + intros [rs Hrs] z Hz. apply compute_ok_iff in Hrs; [|done].
      apply list_elem_of_lookup in Hz as [i Hi].
      destruct (Forall2_lookup_l _ _ _ _ _ Hrs Hi) as (r & _ & Hr). by exists r.
    + intros Hall. destruct (all_ok_results network (g_data w) zs Hall) as [rs Hrs].
      exists rs. by apply compute_ok_iff.
  - intros e He. apply compute_raise in He as (i & z & Hz & Hv); [|done].
    exists z. split; [|done]. apply list_elem_of_lookup. eauto.
Qed.

End Edges.

(** ** What a run reads *)

Section Traffic.

Context {Masks Flows Styles Diams : Type}.
Variable network :
  Cellpose -> Dense -> option Z -> list (list Z) ->
  result (Masks * Flows * Styles * Diams).

Lemma omap_lookup_seq {A} (l : list A) :
  omap (λ i, l !! i) (seq 0 (length l)) = l.
Proof.
  induction l as [|x l IH] using rev_ind; [done|].
  rewrite length_app, Nat.add_1_r, seq_S, omap_app. simpl.
  rewrite lookup_app_r, Nat.sub_diag by lia. simpl. f_equal.
  rewrite <- IH at 2. apply list_omap_ext.
  apply Forall_Forall2_diag, Forall_forall. intros i Hi.
  apply elem_of_seq in Hi. by rewrite lookup_app_l by lia.
Qed.

Lemma scheduled_tasks (zs : list Z) sched :
  sched ≡ₚ seq 0 (length zs) → omap (λ i, zs !! i) sched ≡ₚ zs.
Proof. intros ->. by rewrite omap_lookup_seq. Qed.

(** The events of a run are those of the tasks that ran, one block per
    task; when the run succeeds these are the scheduled tasks. *)
Lemma execute_trace zs sched fin w :
  ∃ ran,
    (execute (analyze_task network <$> zs) sched fin w).2 =
      add_trace w (concat (analyze_events (g_data w) <$> ran)) ∧
    Forall (λ z, z ∈ zs) ran ∧
    (is_Ok (execute (analyze_task network <$> zs) sched fin w).1 →
     ran = omap (λ i, zs !! i) sched).
Proof.
  revert fin w. induction sched as [|i sched IH]; intros fin w.
  - exists []. simpl. by rewrite add_trace_nil.
  - rewrite execute_step. destruct (zs !! i) as [z|] eqn:Hz; simpl.
    + assert (z ∈ zs) as Hin by (apply list_elem_of_lookup; eauto).
      destruct (analyze_value network (g_data w) z) as [r|e].
      * destruct (IH (<[i := r]> fin) (add_trace w (analyze_events (g_data w) z)))
          as (ran & Ht & Hran & Hok).
        exists (z :: ran). rewrite Hz. simpl. split; [|split].
        -- rewrite Ht, g_data_add_trace. by rewrite add_trace_app.
        -- by constructor.
        -- intros H. by rewrite (Hok H).
      * exists [z]. simpl. rewrite app_nil_r. split; [done|].
        split; [by constructor|]. by intros [? ?].
    + destruct (IH fin w) as (ran & Ht & Hran & Hok).
      exists ran. by rewrite Hz.
Qed.

Lemma fetched_analyze_events d nt nc nz ny nx z :
  shape d = [nt; nc; nz; ny; nx] →
  Forall (λ s, s = section_index (wrap z nz)) (fetched (analyze_events d z)).
Proof.
  intros Hs. unfold analyze_events.
  rewrite (getitem_section _ _ _ _ _ _ _ Hs).
  destruct (nt <=? 0); [constructor|]. destruct (nz <=? z); [constructor|].
  destruct (z <? - nz); [constructor|]. cbn [sel].
  destruct (fetch _); repeat constructor.
Qed.

Lemma fetched_analyze_events_ok d nt nc nz ny nx z :
  shape d = [nt; nc; nz; ny; nx] →
  is_Ok (analyze_value network d z) →
  section_index (wrap z nz) ∈ fetched (analyze_events d z).
Proof.
  intros Hs [r Hr]. unfold analyze_value in Hr. unfold analyze_events.
  rewrite (getitem_section _ _ _ _ _ _ _ Hs) in *.
  destruct (nt <=? 0); [done|]. destruct (nz <=? z); [done|].
  destruct (z <? - nz); [done|]. cbn [sel rbind] in *.
  destruct (fetch _); [|done]. apply list_elem_of_here.
Qed.

Lemma fetched_blocks d (ran : list Z) :
  fetched (concat (analyze_events d <$> ran)) =
  ran ≫= (λ z, fetched (analyze_events d z)).
Proof.
  induction ran as [|z ran IH]; [done|].
  rewrite fmap_cons, concat_cons, bind_cons. unfold fetched at 1.
  rewrite omap_app. by f_equal.
Qed.

(** X7. Whatever the schedule and the outcome, a run of tasks over a TCZYX
    array requests nothing but sections of its own coordinates at
    timepoint 0, each in one piece; when it succeeds under a schedule that
    runs every task once, the section of every task has been requested. *)
Theorem run_fetches_only_its_sections (zs : list Z) sched w nt nc nz ny nx :
  shape (g_data w) = [nt; nc; nz; ny; nx] →
  let out := compute (analyze_task network <$> zs) sched w in
  ∃ new,
    fetched (trace out.2) = fetched (trace w) ++ new ∧
    Forall (λ s, ∃ z, z ∈ zs ∧ s = section_index (wrap z nz)) new ∧
    (sched ≡ₚ seq 0 (length zs) → is_Ok out.1 →
     ∀ z, z ∈ zs → section_index (wrap z nz) ∈ new).
Proof.
  intros Hs out.
  destruct (execute_trace zs sched ∅ w) as (ran & Ht & Hran & Hok).
  pose proof (execute_spec network zs sched ∅ w) as Hspec.
  assert (trace out.2 = trace w ++ concat (analyze_events (g_data w) <$> ran) ∧
          (is_Ok out.1 → is_Ok (execute (analyze_task network <$> zs) sched ∅ w).1))
    as [Htr Hex].
  { unfold out. rewrite compute_run.
    destruct (execute _ sched ∅ w) as [[fin|e] w']; simpl in *.
    - destruct (repack _ _); simpl; rewrite Ht; (split; [done|]); by exists fin.
    - rewrite Ht. split; [done|]. by intros [? ?]. }
  exists (ran ≫= (λ z, fetched (analyze_events (g_data w) z))).
  split; [|split].
  - rewrite Htr. unfold fetched at 1. rewrite omap_app. f_equal.
    apply fetched_blocks.
  - apply Forall_forall. intros s Hin.
    apply list_elem_of_bind in Hin as (z & Hin & Hz).
    exists z. split; [by eapply Forall_forall in Hran|].
    pose proof (fetched_analyze_events _ _ _ _ _ _ z Hs) as Hall.
    by eapply Forall_forall in Hall.
  - intros Hp Hout z Hz. specialize (Hok (Hex Hout)). subst ran.
    destruct (Hex Hout) as [fin Hfin]. rewrite Hfin in Hspec.
    destruct Hspec as [Hall _].
    apply list_elem_of_lookup in Hz as [i Hi].
    destruct (Hall i z) as (r & Hv & _); [by eapply scheduled|done|].
    apply list_elem_of_bind. exists z. split.
    + eapply fetched_analyze_events_ok; [done|by exists r].
    + apply list_elem_of_omap. exists i. split; [by eapply scheduled|done].
Qed.

Lemma length_read_voxels rd ps vs :
  read_voxels rd ps = Ok vs → length vs = length ps.
Proof.
  revert vs. induction ps as [|p ps IH]; intros vs; simpl.
  - by intros [= <-].
  - destruct (rd p) as [v|]; simpl; [|done].
    destruct (read_voxels rd ps) as [vs'|]; simpl; [|done].
    intros [= <-]. simpl. by rewrite (IH vs').
Qed.

Lemma length_bind_const {A B} (l : list A) (f : A → list B) n :
  (∀ x, length (f x) = n) → length (l ≫= f) = (length l * n)%nat.
Proof.
  intros Hf. induction l as [|x l IH]; [done|].
  rewrite bind_cons, length_app, Hf, IH. simpl. lia.
Qed.

Lemma length_section_positions nc ny nx z :
  length (section_positions nc ny nx z) =
  (Z.to_nat nc * (Z.to_nat ny * Z.to_nat nx))%nat.
Proof.
  unfold section_positions.
  rewrite (length_bind_const _ _ (Z.to_nat ny * Z.to_nat nx)).
  - by rewrite length_range, Z.sub_0_r.
  - intros c. rewrite (length_bind_const _ _ (Z.to_nat nx)).
    + by rewrite length_range, Z.sub_0_r.
    + intros y. rewrite (length_bind_const _ _ 1).
      * rewrite length_range, Z.sub_0_r. lia.
      * done.
Qed.

(** X8. A task hands the network one section and nothing more: whenever the
    network runs for a coordinate of a TCZYX array, its image has shape
    (C, Y, X) and holds C * Y * X values, however many sections and
    timepoints the array has. *)
Theorem analyze_reads_one_section_worth z w nt nc nz ny nx new img :
  shape (g_data w) = [nt; nc; nz; ny; nx] →
  0 ≤ nc → 0 ≤ ny → 0 ≤ nx →
  trace (analyze network z w).2 = trace w ++ new →
  EvEval img ∈ new →
  dshape img = [nc; ny; nx] ∧ Z.of_nat (length (dvals img)) = nc * ny * nx.
Proof.
  intros Hs Hc Hy Hx Hnew Hin. rewrite analyze_run in Hnew. simpl in Hnew.
  apply app_inv_head in Hnew. subst new.
  unfold analyze_events in Hin. rewrite (getitem_section _ _ _ _ _ _ _ Hs) in Hin.
  apply elem_of_cons in Hin as [Hin|Hin]; [done|].
  destruct (nt <=? 0); [by apply elem_of_nil in Hin|].
  destruct (nz <=? z); [by apply elem_of_nil in Hin|].
  destruct (z <? - nz); [by apply elem_of_nil in Hin|].
  rewrite (fetch_section _ _ _ _ _ _ _ Hs) in Hin.
  destruct (read_voxels _ _) as [vs|] eqn:Hvs; simpl in Hin.
  - assert (img = {| dshape := [nc; ny; nx]; dvals := vs |}) as ->.
    { repeat (apply elem_of_cons in Hin as [Hin|Hin]; [congruence|]).
      by apply elem_of_nil in Hin. }
    simpl. split; [done|]. apply length_read_voxels in Hvs.
    rewrite Hvs, length_section_positions. lia.
  - apply list_elem_of_singleton in Hin. discriminate.
Qed.

End Traffic.

(** * The viewer cells *)

Lemma sequence_getitem_in_range {A} (l : list A) i :
  0 ≤ i < Z.of_nat (length l) →
  ∃ x, l !! Z.to_nat i = Some x ∧ sequence_getitem l i = Ok x.
Proof.
  intros Hi. destruct (lookup_lt_is_Some_2 l (Z.to_nat i)) as [x Hx]; [lia|].
  exists x. split; [done|]. unfold sequence_getitem.
  assert ((i <? 0) = false) as -> by lia.
  assert ((i <? 0) || (Z.of_nat (length l) <=? i) = false) as ->.
  { apply orb_false_intro; lia. }
  by rewrite Hx.
Qed.

Lemma sequence_getitem_out_of_range {A} (l : list A) i :
  Z.of_nat (length l) ≤ i ∨ i < - Z.of_nat (length l) →
  sequence_getitem l i = Raise TupleIndexError.
Proof.
  intros Hi. unfold sequence_getitem.
  destruct (Z.ltb_spec i 0).
  - assert ((i + Z.of_nat (length l) <? 0) = true) as -> by lia. done.
  - assert ((i <? 0) = false) as -> by lia.
    assert ((Z.of_nat (length l) <=? i) = true) as -> by lia. done.
Qed.

Lemma sequence_getitem_negative {A} (l : list A) i :
  - Z.of_nat (length l) ≤ i < 0 →
  sequence_getitem l i = sequence_getitem l (i + Z.of_nat (length l)).
Proof.
  intros Hi. unfold sequence_getitem. cbv zeta.
  assert ((i <? 0) = true) as -> by lia.
  assert ((i + Z.of_nat (length l) <? 0) = false) as Hj by lia.
  by rewrite !Hj.
Qed.

Section ViewerFacts.

Context {Masks Flows Styles Diams : Type}.
Variable network :
  Cellpose -> Dense -> option Z -> list (list Z) ->
  result (Masks * Flows * Styles * Diams).

Lemma display_results_run (nb : @Notebook Masks) i :
  display_results i nb =
  match sequence_getitem (g_results nb) i with
  | Ok (r, z) =>
      (Ok tt,
       add_canvas nb [PlFigure 10 10; PlSubplot 121; PlImshowMasks r;
                      PlTitle ("z: " +:+ pretty z); PlFlush])
  | Raise e => (Raise e, nb)
  end.
Proof.
  unfold display_results, st_bind, read_results, st_lift.
  destruct (sequence_getitem _ _) as [[r z]|e]; [|done].
  unfold draw, add_canvas. simpl. by rewrite <- !app_assoc.
Qed.

(** What the two compute cells leave in the session when they succeed. *)
Lemma cells_run (nb : @Notebook Masks) range_z n sched :
  shape (g_data (kernel nb)) !! 2%nat = Some n →
  sched ≡ₚ seq 0 (Z.to_nat (2 * range_z)) →
  let ran := (cell_build network range_z ;;> cell_compute sched) nb in
  ran.1 = Ok tt →
  Forall2 (λ z r, analyze_value network (g_data (kernel nb)) z = Ok r)
    (range (n `div` 2 - range_z) (n `div` 2 + range_z)) (g_results ran.2) ∧
  canvas ran.2 = canvas nb ∧ g_labels ran.2 = g_labels nb.
Proof.
  intros Hn Hp. unfold cell_build, cell_compute, st_bind, in_kernel,
    read_lazy_results, assign_lazy_results, assign_results.
  rewrite (build_task_graph_run _ _ _ n Hn). simpl.
  set (zs := range _ _). set (w1 := add_trace _ _).
  destruct (compute _ sched w1) as [[rs|e] w2] eqn:Hc; simpl; [|done].
  intros _. split; [|done].
  assert ((compute (analyze_task network <$> zs) sched w1).1 = Ok rs) as Hc'
    by (by rewrite Hc).
  apply compute_ok_iff in Hc'; [done|]. unfold zs. rewrite length_range.
  by replace (n `div` 2 + range_z - (n `div` 2 - range_z)) with (2 * range_z) by lia.
Qed.

(** X9. After a successful run, every position of the plane slider (0 to
    [len(results) - 1]) shows a result, and its title carries the
    coordinate of the task submitted at that position: middle - radius +
    position. *)
Theorem viewer_shows_submitted_coordinates (nb : @Notebook Masks) range_z n sched i :
  shape (g_data (kernel nb)) !! 2%nat = Some n →
  sched ≡ₚ seq 0 (Z.to_nat (2 * range_z)) →
  let ran := (cell_build network range_z ;;> cell_compute sched) nb in
  ran.1 = Ok tt →
  0 ≤ i ≤ Z.of_nat (length (g_results ran.2)) - 1 →
  ∃ r,
    display_results i ran.2 =
    (Ok tt,
     add_canvas ran.2
       [PlFigure 10 10; PlSubplot 121; PlImshowMasks r;
        PlTitle ("z: " +:+ pretty (n `div` 2 - range_z + i)); PlFlush]).
Proof.
  intros Hn Hp ran Hok Hi.
  destruct (cells_run nb range_z n sched Hn Hp Hok) as (Hrs & _ & _).
  fold ran in Hrs.
  destruct (sequence_getitem_in_range (g_results ran.2) i) as ([r z] & Hl & Hg);
    [lia|].
  destruct (Forall2_lookup_r _ _ _ _ _ Hrs Hl) as (z' & Hz' & Hv).
  apply analyze_value_coordinate in Hv. simpl in Hv. subst z'.
  apply lookup_range in Hz' as [-> _].
  exists r. rewrite display_results_run, Hg. by rewrite Z2Nat.id by lia.
Qed.

(** X10. An index outside [-len(results), len(results)) makes
    [display_results] raise at [results[i]], before anything is drawn; with
    no result at all every index does. *)
Theorem display_results_out_of_range (nb : @Notebook Masks) i :
  Z.of_nat (length (g_results nb)) ≤ i ∨ i < - Z.of_nat (length (g_results nb)) →
  display_results i nb = (Raise TupleIndexError, nb).
Proof.
  intros Hi. by rewrite display_results_run, sequence_getitem_out_of_range.
Qed.

Lemma getitem_label d lt lc lz ly lx z :
  shape d = [lt; lc; lz; ly; lx] → 0 < lt → 0 < lc →
  getitem d (label_index z) =
  if lz <=? z then Raise (IndexError 2 z lz)
  else if z <? - lz then Raise (IndexError 2 z lz)
  else Ok {| base := d; sel := label_index (wrap z lz) |}.
Proof.
  intros Hs Ht Hc. unfold getitem, normalize_index, label_index, wrap.
  rewrite Hs. simpl.
  assert ((lt <=? 0) = false) as -> by lia.
  assert ((0 <? - lt) = false) as -> by lia. simpl.
  assert ((lc <=? 0) = false) as -> by lia.
  assert ((0 <? - lc) = false) as -> by lia. simpl.
  destruct (lz <=? z); simpl; [done|].
  destruct (z <? - lz); simpl; [done|].
  by destruct (z <? 0).
Qed.

(** X11. [display] draws the Cellpose panel first and reads the label image
    afterwards. If the coordinate of the result lies outside the z range
    of [labels], the call raises with the left panel already drawn and
    nothing fetched. Otherwise it fetches one plane of [labels], the
    section of the same coordinate (counted from the end when negative) at
    timepoint 0 and channel 0, and draws it under the same coordinate. *)
Theorem display_label_panel (nb : @Notebook Masks) i r z lt lc lz ly lx :
  sequence_getitem (g_results nb) i = Ok (r, z) →
  shape (g_labels nb) = [lt; lc; lz; ly; lx] →
  0 < lt → 0 < lc →
  let left := [PlFigure 10 10; PlSubplot 121; PlImshowMasks r;
               PlTitle ("Cellpose z: " +:+ pretty z); PlSubplot 122] in
  (lz ≤ z ∨ z < - lz →
   display i nb = (Raise (IndexError 2 z lz), add_canvas nb left)) ∧
  (- lz ≤ z < lz →
   ∀ img,
     fetch {| base := g_labels nb; sel := label_index (wrap z lz) |} = Ok img →
     dshape img = [ly; lx] ∧
     display i nb =
     (Ok tt,
      {| kernel := add_trace (kernel nb) [EvFetch (label_index (wrap z lz))];
         g_lazy_results := g_lazy_results nb;
         g_results := g_results nb;
         g_labels := g_labels nb;
         canvas := canvas nb ++ left ++
                   [PlImshow img; PlTitle ("Original z: " +:+ pretty z);
                    PlFlush] |})).
Proof.
  intros Hg Hs Ht Hc left.
  pose proof (getitem_label (g_labels nb) lt lc lz ly lx z Hs Ht Hc) as Hgi.
  split.
  - intros Hz. unfold display, st_bind, read_results, st_lift. rewrite Hg.
    unfold draw, read_labels. simpl. rewrite Hgi.
    assert ((if lz <=? z then Raise (IndexError 2 z lz)
             else if z <? - lz then Raise (IndexError 2 z lz)
             else Ok {| base := g_labels nb; sel := label_index (wrap z lz) |})
            = Raise (IndexError 2 z lz)) as ->.
    { destruct (Z.leb_spec lz z); [done|].
      by assert ((z <? - lz) = true) as -> by lia. }
    unfold add_canvas, left. by rewrite <- !app_assoc.
  - intros Hz img Himg. split.
    { unfold fetch in Himg. simpl in Himg. rewrite Hs in Himg.
      destruct (read_voxels _ _); simpl in Himg; [|done].
      by injection Himg as <-. }
    unfold display, st_bind, read_results, st_lift. rewrite Hg.
    unfold draw, read_labels. simpl. rewrite Hgi.
    assert ((lz <=? z) = false) as -> by lia.
    assert ((z <? - lz) = false) as -> by lia.
    unfold in_kernel, asarray, bind, log, lift. simpl. rewrite Himg.
    unfold add_trace, left. simpl. by rewrite <- !app_assoc.
Qed.

End ViewerFacts.

(** * NumPy arrays and the StarDist notebook *)

Lemma size_nonneg shp : Forall (λ d, 0 ≤ d) shp → 0 ≤ size shp.
Proof.
  induction 1 as [|d shp Hd _ IH]; simpl; [lia|]. by apply Z.mul_nonneg_nonneg.
Qed.

Lemma offset_bound p shp :
  Forall2 (λ i d, 0 ≤ i < d) p shp → 0 ≤ offset p shp < size shp.
Proof.
  induction 1 as [|i d p shp Hi _ IH]; simpl; [lia|]. nia.
Qed.

Lemma read_voxels_is_Ok rd ps :
  (∀ p, p ∈ ps → is_Ok (rd p)) → is_Ok (read_voxels rd ps).
Proof.
  induction ps as [|p ps IH]; intros Hall; [by exists []|]. simpl.
  destruct (Hall p) as [v ->]; [apply list_elem_of_here|].
  destruct IH as [vs ->]; [intros q Hq; by apply Hall, list_elem_of_further|].
  by exists (v :: vs).
Qed.

Lemma read_voxels_raise rd ps e :
  read_voxels rd ps = Raise e → ∃ p, p ∈ ps ∧ rd p = Raise e.
Proof.
  induction ps as [|p ps IH]; simpl; [done|].
  destruct (rd p) as [v|e'] eqn:Hp; simpl.
  - destruct (read_voxels rd ps) as [vs|e'']; simpl; [done|].
    intros [= ->]. destruct IH as (q & Hq & He); [done|].
    exists q. split; [by apply list_elem_of_further|done].
  - intros [= ->]. exists p. split; [apply list_elem_of_here|done].
Qed.

Lemma read_voxels_lookup rd ps vs k p :
  read_voxels rd ps = Ok vs → ps !! k = Some p →
  ∃ v, vs !! k = Some v ∧ rd p = Ok v.
Proof.
  revert vs k. induction ps as [|q ps IH]; intros vs k; simpl; [done|].
  destruct (rd q) as [v|] eqn:Hq; simpl; [|done].
  destruct (read_voxels rd ps) as [vs'|]; simpl; [|done].
  intros [= <-]. destruct k as [|k]; simpl.
  - intros [= <-]. by exists v.
  - by apply IH.
Qed.

(** The positions under a checked and wrapped selector lie inside the
    array. *)
Lemma positions_in_bounds axis idx shp :
  length idx = length shp →
  check_axes axis idx shp = Ok tt →
  ∀ p, p ∈ positions (posify_axes idx shp) shp →
       Forall2 (λ i d, 0 ≤ i < d) p shp.
Proof.
  revert axis shp. induction idx as [|ind idx IH]; intros axis [|d shp] Hlen Hck p Hp;
    try discriminate.
  - apply list_elem_of_singleton in Hp as ->. constructor.
  - simpl in Hck, Hp.
    destruct (check_index axis ind d) as [[]|] eqn:Hci; simpl in Hck; [|done].
    apply list_elem_of_bind in Hp as (i & Hp & Hi).
    apply list_elem_of_fmap in Hp as (q & -> & Hq).
    constructor; [|eapply IH; eauto].
    destruct ind as [j|]; simpl in Hci, Hi.
    + destruct (Z.leb_spec d j); [done|]. destruct (Z.ltb_spec j (- d)); [done|].
      destruct (Z.ltb_spec j 0); simpl in Hi;
        apply list_elem_of_singleton in Hi; lia.
    + apply elem_of_range in Hi. lia.
Qed.

(** Indexing a well-formed NumPy array fails exactly when the index tuple
    is refused; the values are always there. *)
Lemma ndarray_getitem_normalized a idx :
  well_formed a →
  match normalize_index idx (dshape a) with
  | Ok s =>
      ∃ vs, ndarray_getitem a idx =
            Ok {| dshape := view_shape s (dshape a); dvals := vs |}
  | Raise e => ndarray_getitem a idx = Raise e
  end.
Proof.
  intros [Hpos Hlen]. unfold ndarray_getitem, getitem. simpl.
  destruct (normalize_index idx (dshape a)) as [s|e] eqn:Hn; [|done]. simpl.
  unfold fetch. simpl.
  destruct (read_voxels_is_Ok
              (λ p, match dvals a !! Z.to_nat (offset p (dshape a)) with
                    | Some v => Ok v
                    | None => Raise (FetchError p)
                    end)
              (positions s (dshape a))) as [vs Hvs]; [|rewrite Hvs; by exists vs].
  intros p Hp. unfold normalize_index in Hn.
  set (idx' := idx ++ replicate _ FullSlice) in Hn.
  destruct (Nat.ltb_spec (length (dshape a)) (length idx')); [done|].
  destruct (check_axes 0 idx' (dshape a)) as [[]|] eqn:Hck; simpl in Hn; [|done].
  injection Hn as <-.
  assert (length idx' = length (dshape a)) as Hl.
  { unfold idx' in *. rewrite length_app, length_replicate in *. lia. }
  pose proof (positions_in_bounds 0 idx' (dshape a) Hl Hck p Hp) as Hb.
  apply offset_bound in Hb.
  destruct (lookup_lt_is_Some_2 (dvals a) (Z.to_nat (offset p (dshape a))))
    as [v Hv]; [lia|].
  rewrite Hv. by exists v.
Qed.

Lemma normalize_plane nt nc nz ny nx c z :
  0 < nt →
  normalize_index (Stardist.plane_index c z) [nt; nc; nz; ny; nx] =
  if nc <=? c then Raise (IndexError 1 c nc)
  else if c <? - nc then Raise (IndexError 1 c nc)
  else if nz <=? z then Raise (IndexError 2 z nz)
  else if z <? - nz then Raise (IndexError 2 z nz)
  else Ok (Stardist.plane_index (wrap c nc) (wrap z nz)).
Proof.
  intros Ht. unfold normalize_index, Stardist.plane_index, wrap. simpl.
  assert ((nt <=? 0) = false) as -> by lia.
  assert ((0 <? - nt) = false) as -> by lia. simpl.
  destruct (nc <=? c); simpl; [done|]. destruct (c <? - nc); simpl; [done|].
  destruct (nz <=? z); simpl; [done|]. destruct (z <? - nz); simpl; [done|].
  by destruct (c <? 0), (z <? 0).
Qed.

Lemma normalize_slice_index sz sy sx z :
  normalize_index [Int z; FullSlice; FullSlice] [sz; sy; sx] =
  if sz <=? z then Raise (IndexError 0 z sz)
  else if z <? - sz then Raise (IndexError 0 z sz)
  else Ok [Int (wrap z sz); FullSlice; FullSlice].
Proof.
  unfold normalize_index, wrap. simpl.
  destruct (sz <=? z); simpl; [done|]. destruct (z <? - sz); simpl; [done|].
  by destruct (z <? 0).
Qed.

(** ** update *)

Lemma update_run s z img ls :
  ndarray_getitem (Stardist.data s) (Stardist.plane_index 1 z) = Ok img →
  ndarray_getitem (Stardist.label_slices s) [Int z; FullSlice; FullSlice] = Ok ls →
  Stardist.update z s =
  (Ok tt,
   match ndarray_getitem (Stardist.labels s) (Stardist.plane_index 1 z) with
   | Ok l =>
       Stardist.after s
         [Stardist.Figure 10 10; Stardist.Subplot 121;
          Stardist.Imshow img "gray" None;
          Stardist.Imshow l "jet" (Some (1 # 2)%Q);
          Stardist.Subplot 122;
          Stardist.Imshow img "gray" None;
          Stardist.Imshow ls "jet" (Some (1 # 2)%Q);
          Stardist.TightLayout; Stardist.FlushEvents] []
   | Raise _ =>
       Stardist.after s
         [Stardist.Figure 10 10; Stardist.Subplot 121;
          Stardist.Imshow img "gray" None;
          Stardist.Subplot 122;
          Stardist.Imshow img "gray" None;
          Stardist.Imshow ls "jet" (Some (1 # 2)%Q);
          Stardist.TightLayout; Stardist.FlushEvents] [pretty z]
   end).
Proof.
  intros Hd Hl.
  unfold Stardist.update, st_bind, st_lift, try_except, Stardist.plt,
    Stardist.print, Stardist.read_data, Stardist.read_labels,
    Stardist.read_label_slices, Stardist.after.
  simpl. rewrite Hd. simpl.
  destruct (ndarray_getitem (Stardist.labels s) _) as [l|e]; simpl;
    rewrite Hd; simpl; rewrite Hl; simpl;
    rewrite <- ?app_assoc; simpl; by rewrite ?app_nil_r.
Qed.

Lemma update_data_raises s z e :
  ndarray_getitem (Stardist.data s) (Stardist.plane_index 1 z) = Raise e →
  Stardist.update z s =
  (Raise e, Stardist.after s [Stardist.Figure 10 10; Stardist.Subplot 121] []).
Proof.
  intros Hd.
  unfold Stardist.update, st_bind, st_lift, Stardist.plt, Stardist.read_data,
    Stardist.after.
  simpl. rewrite Hd. simpl. by rewrite <- app_assoc, app_nil_r.
Qed.

Lemma data_plane_ok a nt nc nz ny nx z :
  well_formed a → dshape a = [nt; nc; nz; ny; nx] →
  0 < nt → 1 < nc → - nz ≤ z < nz →
  ∃ vs, ndarray_getitem a (Stardist.plane_index 1 z) =
        Ok {| dshape := [ny; nx]; dvals := vs |}.
Proof.
  intros Hwf Hs Ht Hc Hz.
  pose proof (ndarray_getitem_normalized a (Stardist.plane_index 1 z) Hwf) as H.
  rewrite Hs, normalize_plane in H by done.
  assert ((nc <=? 1) = false) as Hc1 by lia.
  assert ((1 <? - nc) = false) as Hc2 by lia.
  assert ((nz <=? z) = false) as Hz1 by lia.
  assert ((z <? - nz) = false) as Hz2 by lia.
  rewrite Hc1, Hc2, Hz1, Hz2 in H. exact H.
Qed.

Lemma label_slice_ok a sz sy sx z :
  well_formed a → dshape a = [sz; sy; sx] → - sz ≤ z < sz →
  ∃ vs, ndarray_getitem a [Int z; FullSlice; FullSlice] =
        Ok {| dshape := [sy; sx]; dvals := vs |}.
Proof.
  intros Hwf Hs Hz.
  pose proof (ndarray_getitem_normalized a [Int z; FullSlice; FullSlice] Hwf) as H.
  rewrite Hs, normalize_slice_index in H.
  assert ((sz <=? z) = false) as Hz1 by lia.
  assert ((z <? - sz) = false) as Hz2 by lia.
  rewrite Hz1, Hz2 in H. exact H.
Qed.

(** X13. Over the whole range of the z slider (0 to [data.shape[2] - 1]),
    [update] raises nothing, whatever [labels] holds: if the label plane
    cannot be indexed the exception is swallowed, [z] is printed and the
    other three images are drawn all the same; if it can, all four are
    drawn and nothing is printed. Needs a second channel in [data] and at
    least as many label slices as sections. *)
Theorem update_swallows_label_errors s z nt nc nz ny nx sz sy sx :
  well_formed (Stardist.data s) →
  well_formed (Stardist.label_slices s) →
  dshape (Stardist.data s) = [nt; nc; nz; ny; nx] →
  dshape (Stardist.label_slices s) = [sz; sy; sx] →
  0 < nt → 1 < nc → nz ≤ sz →
  0 ≤ z ≤ nz - 1 →
  ∃ img ls,
    dshape img = [ny; nx] ∧ dshape ls = [sy; sx] ∧
    Stardist.update z s =
    (Ok tt,
     match ndarray_getitem (Stardist.labels s) (Stardist.plane_index 1 z) with
     | Ok l =>
         Stardist.after s
           [Stardist.Figure 10 10; Stardist.Subplot 121;
            Stardist.Imshow img "gray" None;
            Stardist.Imshow l "jet" (Some (1 # 2)%Q);
            Stardist.Subplot 122;
            Stardist.Imshow img "gray" None;
            Stardist.Imshow ls "jet" (Some (1 # 2)%Q);
            Stardist.TightLayout; Stardist.FlushEvents] []
     | Raise _ =>
         Stardist.after s
           [Stardist.Figure 10 10; Stardist.Subplot 121;
            Stardist.Imshow img "gray" None;
            Stardist.Subplot 122;
            Stardist.Imshow img "gray" None;
            Stardist.Imshow ls "jet" (Some (1 # 2)%Q);
            Stardist.TightLayout; Stardist.FlushEvents] [pretty z]
     end).
Proof.
  intros Hwd Hwl Hsd Hsl Ht Hc Hsz Hz.
  destruct (data_plane_ok _ nt nc nz ny nx z Hwd Hsd Ht Hc) as [vs Hd]; [lia|].
  destruct (label_slice_ok _ sz sy sx z Hwl Hsl) as [vl Hl]; [lia|].
  eexists _, _. split; [|split; [|by apply update_run]]; done.
Qed.

(** X14. With label data of a single channel the overlay of the left panel is
    never drawn: [update] asks for channel 1 of [labels], the index is
    refused for every [z], and [z] is printed instead. *)
Theorem single_channel_labels_are_never_drawn s z lt lc lz ly lx img ls :
  dshape (Stardist.labels s) = [lt; lc; lz; ly; lx] →
  lc ≤ 1 →
  ndarray_getitem (Stardist.data s) (Stardist.plane_index 1 z) = Ok img →
  ndarray_getitem (Stardist.label_slices s) [Int z; FullSlice; FullSlice] = Ok ls →
  Stardist.update z s =
  (Ok tt,
   Stardist.after s
     [Stardist.Figure 10 10; Stardist.Subplot 121;
      Stardist.Imshow img "gray" None;
      Stardist.Subplot 122;
      Stardist.Imshow img "gray" None;
      Stardist.Imshow ls "jet" (Some (1 # 2)%Q);
      Stardist.TightLayout; Stardist.FlushEvents] [pretty z]).
Proof.
  intros Hs Hc Hd Hl. rewrite (update_run s z img ls Hd Hl).
  assert (∃ e, ndarray_getitem (Stardist.labels s) (Stardist.plane_index 1 z)
               = Raise e) as [e ->]; [|done].
  unfold ndarray_getitem, getitem, normalize_index, Stardist.plane_index.
  simpl. rewrite Hs. simpl.
  destruct (lt <=? 0); simpl; [by eexists|].
  destruct (0 <? - lt); simpl; [by eexists|].
  assert ((lc <=? 1) = true) as -> by lia. simpl. by eexists.
Qed.

(** X15. A section beyond the last one makes [update] raise at the first
    [data[0, c, z, :, :]]: the figure and its first subplot exist, no
    image was drawn and nothing was printed. *)
Theorem update_beyond_last_section s z nt nc nz ny nx :
  well_formed (Stardist.data s) →
  dshape (Stardist.data s) = [nt; nc; nz; ny; nx] →
  0 < nt → 1 < nc →
  nz ≤ z →
  Stardist.update z s =
  (Raise (IndexError 2 z nz),
   Stardist.after s [Stardist.Figure 10 10; Stardist.Subplot 121] []).
Proof.
  intros Hwd Hsd Ht Hc Hz. apply update_data_raises.
  pose proof (ndarray_getitem_normalized _ (Stardist.plane_index 1 z) Hwd) as H.
  rewrite Hsd, normalize_plane in H by done.
  assert ((nc <=? 1) = false) as Hc1 by lia.
  assert ((1 <? - nc) = false) as Hc2 by lia.
  assert ((nz <=? z) = true) as Hz1 by lia.
  by rewrite Hc1, Hc2, Hz1 in H.
Qed.

(** ** The eager load *)

Lemma lookup_bind_blocks {A B} (l : list A) (f : A → list B) N j k x :
  (∀ y, length (f y) = N) → l !! j = Some x → (k < N)%nat →
  (l ≫= f) !! (j * N + k)%nat = f x !! k.
Proof.
  intros Hf. revert j. induction l as [|y l IH]; intros j Hj Hk; [done|].
  rewrite bind_cons. destruct j as [|j]; simpl in Hj.
  - injection Hj as ->. simpl. apply lookup_app_l. by rewrite Hf.
  - rewrite lookup_app_r by (rewrite Hf; simpl; lia).
    rewrite Hf. replace (S j * N + k - N)%nat with (j * N + k)%nat by (simpl; lia).
    by apply IH.
Qed.

Lemma check_axes_full axis shp :
  check_axes axis (replicate (length shp) FullSlice) shp = Ok tt.
Proof. revert axis. induction shp as [|d shp IH]; intros axis; [done|]. apply IH. Qed.

Lemma posify_axes_full shp :
  posify_axes (replicate (length shp) FullSlice) shp =
  replicate (length shp) FullSlice.
Proof. induction shp as [|d shp IH]; [done|]. simpl. by rewrite IH. Qed.

Lemma view_shape_full shp :
  view_shape (replicate (length shp) FullSlice) shp = shp.
Proof. induction shp as [|d shp IH]; [done|]. simpl. by rewrite IH. Qed.

Lemma length_positions_full shp :
  Forall (λ d, 0 ≤ d) shp →
  Z.of_nat (length (positions (replicate (length shp) FullSlice) shp)) = size shp.
Proof.
  induction 1 as [|d shp Hd _ IH]; [done|]. simpl.
  rewrite (length_bind_const _ _
             (length (positions (replicate (length shp) FullSlice) shp))).
  - rewrite length_range. lia.
  - intros i. by rewrite length_fmap.
Qed.

Lemma positions_full_in_bounds shp p :
  p ∈ positions (replicate (length shp) FullSlice) shp →
  Forall2 (λ i d, 0 ≤ i < d) p shp.
Proof.
  intros Hp. rewrite <- (posify_axes_full shp) in Hp.
  eapply (positions_in_bounds 0); [|apply check_axes_full|exact Hp].
  by rewrite length_replicate.
Qed.

(** Row-major order: the position [p] is the [offset p]-th one. *)
Lemma positions_full_lookup shp p :
  Forall2 (λ i d, 0 ≤ i < d) p shp →
  positions (replicate (length shp) FullSlice) shp !! Z.to_nat (offset p shp) =
  Some p.
Proof.
  induction 1 as [|i d p shp Hi Hp IH]; [done|]. simpl.
  assert (Forall (λ d, 0 ≤ d) shp) as Hpos.
  { clear IH. induction Hp as [|???? Hj]; constructor; [lia|done]. }
  pose proof (length_positions_full shp Hpos) as Hlen.
  pose proof (offset_bound p shp Hp) as Hoff.
  set (P := positions (replicate (length shp) FullSlice) shp) in *.
  replace (Z.to_nat (i * size shp + offset p shp))
    with (Z.to_nat i * length P + Z.to_nat (offset p shp))%nat by nia.
  rewrite (lookup_bind_blocks _ _ (length P) _ _ i).
  - by rewrite list_lookup_fmap, IH.
  - intros y. by rewrite length_fmap.
  - apply lookup_range. lia.
  - lia.
Qed.

(** X12. The StarDist notebook's loader reads the whole array at once. When it
    returns, the NumPy array has the shape of the stored array, one value
    per position, and holds at every position the voxel of the store; when
    it raises, some voxel of the array could not be read. Either way the
    store was opened and every voxel requested. *)
Theorem eager_load_copies_every_voxel name resolution w a :
  s3 w !! (Stardist.ENDPOINT_URL +:+ name +:+ "/" +:+ resolution +:+ "/")%string
    = Some a →
  Forall (λ d, 0 ≤ d) (shape a) →
  let out := Stardist.load_binary_from_s3 name resolution w in
  trace out.2 =
    trace w ++
    [EvOpen (Stardist.ENDPOINT_URL +:+ name +:+ "/" +:+ resolution +:+ "/")%string;
     EvFetch (replicate (length (shape a)) FullSlice)] ∧
  match out.1 with
  | Ok d =>
      dshape d = shape a ∧ well_formed d ∧
      ∀ p, Forall2 (λ i n, 0 ≤ i < n) p (shape a) →
           voxel (as_lazy d) p = voxel a p
  | Raise e =>
      ∃ p, Forall2 (λ i n, 0 ≤ i < n) p (shape a) ∧ voxel a p = Raise e
  end.
Proof.
  intros Ha Hpos out.
  assert (out =
    (rmap (λ vs, {| dshape := shape a; dvals := vs |})
       (read_voxels (voxel a)
          (positions (replicate (length (shape a)) FullSlice) (shape a))),
     add_trace w
       [EvOpen (Stardist.ENDPOINT_URL +:+ name +:+ "/" +:+ resolution +:+ "/")%string;
        EvFetch (replicate (length (shape a)) FullSlice)])) as ->.
  { unfold out, Stardist.load_binary_from_s3, from_zarr, asarray,
      Stardist.whole, fetch, bind. rewrite Ha. unfold log, ret, lift, add_trace.
    cbn [sel base trace s3 g_data]. rewrite view_shape_full.
    by rewrite <- app_assoc. }
  split; [done|]. cbn [fst].
  destruct (read_voxels _ _) as [vs|e] eqn:Hvs; simpl.
  - pose proof (length_read_voxels _ _ _ Hvs) as Hlen.
    split; [done|]. split.
    + split; [done|]. simpl. by rewrite Hlen, length_positions_full.
    + intros p Hp. simpl.
      destruct (read_voxels_lookup _ _ _ _ _ Hvs (positions_full_lookup _ _ Hp))
        as (v & Hv & Hrd).
      by rewrite Hv, Hrd.
  - apply read_voxels_raise in Hvs as (p & Hp & He).
    exists p. split; [by apply positions_full_in_bounds|done].
Qed.

(** * The further properties on the examples *)

Lemma build_task_graph_nonpositive_radius_witness :
  build_task_graph times_ten (-3) example_world = (Ok [], example_world).
Proof.
  apply (build_task_graph_nonpositive_radius times_ten (-3) example_world 10).
  - reflexivity.
  - lia.
Defined.

Lemma build_task_graph_needs_z_axis_witness :
  build_task_graph times_ten 2 (world_of (coordinate_array [4; 4])) =
  (Raise TupleIndexError, world_of (coordinate_array [4; 4])).
Proof.
  apply (build_task_graph_needs_z_axis times_ten 2). simpl. lia.
Defined.

Lemma too_few_axes_fail_at_run_witness :
  let w := world_of (coordinate_array [10; 4; 4]) in
  let tasks := analyze_task times_ten <$> [0; 1; 2; 3] in
  let w1 := add_trace w (EvDelayed <$> [0; 1; 2; 3]) in
  build_task_graph times_ten 2 w = (Ok tasks, w1) ∧
  analyze times_ten 1 w = (Raise TooManyIndices, add_trace w [EvCall 1]) ∧
  (compute tasks [3; 1; 0; 2]%nat w1).1 = Raise TooManyIndices.
Proof.
  destruct (too_few_axes_fail_at_run times_ten 2
              (world_of (coordinate_array [10; 4; 4])) 4 [3; 1; 0; 2]%nat)
    as (Hb & Ha & Hc); [simpl; lia|reflexivity|].
  split; [exact Hb|]. split.
  - apply Ha. reflexivity.
  - apply Hc; [lia|]. simpl. solve_Permutation.
Defined.

Lemma reassigned_data_is_analysed_witness :
  ((tasks <- build_task_graph times_ten 2 ;;
    assign_data (coordinate_array [1; 2; 20; 4; 4]) ;;;
    compute tasks [3; 1; 0; 2]%nat) example_world).1 =
  Ok [(30, 3); (40, 4); (50, 5); (60, 6)].
Proof.
  apply (reassigned_data_is_analysed times_ten 2 example_world 10
           (coordinate_array [1; 2; 20; 4; 4]) [3; 1; 0; 2]%nat).
  - reflexivity.
  - simpl. solve_Permutation.
  - repeat constructor.
Defined.

Lemma compute_returns_iff_all_succeed_witness :
  let out := (compute (analyze_task (times_ten_except 4) <$> [3; 4; 5; 6])
                [3; 1; 0; 2]%nat example_built).1 in
  (is_Ok out ↔
   ∀ z, z ∈ [3; 4; 5; 6] →
        is_Ok (analyze_value (times_ten_except 4) (g_data example_built) z)) ∧
  (∀ e, out = Raise e →
        ∃ z, z ∈ [3; 4; 5; 6] ∧
             analyze_value (times_ten_except 4) (g_data example_built) z = Raise e).
Proof.
  apply (compute_returns_iff_all_succeed (times_ten_except 4) [3; 4; 5; 6]
           [3; 1; 0; 2]%nat example_built).
  simpl. solve_Permutation.
Defined.

Lemma run_fetches_only_its_sections_witness :
  let out := compute example_tasks [3; 1; 0; 2]%nat example_built in
  ∃ new,
    fetched (trace out.2) = fetched (trace example_built) ++ new ∧
    Forall (λ s, ∃ z, z ∈ [3; 4; 5; 6] ∧ s = section_index (wrap z 10)) new ∧
    ∀ z, z ∈ [3; 4; 5; 6] → section_index (wrap z 10) ∈ new.
Proof.
  destruct (run_fetches_only_its_sections times_ten [3; 4; 5; 6] [3; 1; 0; 2]%nat
              example_built 1 2 10 4 4) as (new & Hf & Hall & Hin);
    [reflexivity|].
  exists new. split; [exact Hf|]. split; [exact Hall|].
  apply Hin.
  - simpl. solve_Permutation.
  - exists [(30, 3); (40, 4); (50, 5); (60, 6)]. vm_compute. reflexivity.
Defined.

Lemma analyze_reads_one_section_worth_witness :
  let img := {| dshape := [2; 4; 4]; dvals := replicate 32 3 |} in
  dshape img = [2; 4; 4] ∧ Z.of_nat (length (dvals img)) = 2 * 4 * 4.
Proof.
  apply (analyze_reads_one_section_worth times_ten 3 example_world 1 2 10 4 4
           [EvCall 3;
            EvFetch (section_index 3);
            EvEval {| dshape := [2; 4; 4]; dvals := replicate 32 3 |};
            EvFetch (section_index 3);
            EvEval {| dshape := [2; 4; 4]; dvals := replicate 32 3 |};
            EvFetch (section_index 3);
            EvEval {| dshape := [2; 4; 4]; dvals := replicate 32 3 |}]).
  - reflexivity.
  - lia.
  - lia.
  - lia.
  - reflexivity.
  - apply list_elem_of_further, list_elem_of_further, list_elem_of_here.
Defined.

Lemma viewer_shows_submitted_coordinates_witness :
  ∃ r,
    display_results 1 example_viewed =
    (Ok tt,
     add_canvas example_viewed
       [PlFigure 10 10; PlSubplot 121; PlImshowMasks r;
        PlTitle ("z: " +:+ pretty (10 `div` 2 - 2 + 1)); PlFlush]).
Proof.
  apply (viewer_shows_submitted_coordinates times_ten example_notebook 2 10
           [3; 1; 0; 2]%nat 1).
  - reflexivity.
  - simpl. solve_Permutation.
  - reflexivity.
  - by vm_compute.
Defined.

Lemma display_results_out_of_range_witness :
  display_results 4 example_viewed = (Raise TupleIndexError, example_viewed) ∧
  display_results 0 example_notebook = (Raise TupleIndexError, example_notebook).
Proof.
  split.
  - apply (display_results_out_of_range example_viewed 4). left. by vm_compute.
  - apply (display_results_out_of_range example_notebook 0). left. by vm_compute.
Defined.

Lemma display_label_panel_witness :
  let left := [PlFigure 10 10; PlSubplot 121; PlImshowMasks 40;
               PlTitle ("Cellpose z: " +:+ pretty 4); PlSubplot 122] in
  let img := {| dshape := [4; 4]; dvals := replicate 16 4 |} in
  display 1 example_viewed =
  (Ok tt,
   {| kernel := add_trace (kernel example_viewed) [EvFetch (label_index 4)];
      g_lazy_results := g_lazy_results example_viewed;
      g_results := g_results example_viewed;
      g_labels := g_labels example_viewed;
      canvas := canvas example_viewed ++ left ++
                [PlImshow img; PlTitle ("Original z: " +:+ pretty 4); PlFlush] |}).
Proof.
  destruct (display_label_panel example_viewed 1 40 4 1 1 10 4 4)
    as [_ Hin]; [reflexivity|reflexivity|lia|lia|].
  destruct (Hin ltac:(lia) {| dshape := [4; 4]; dvals := replicate 16 4 |})
    as [_ Hd]; [reflexivity|].
  exact Hd.
Defined.

Lemma update_swallows_label_errors_witness :
  ∃ img ls,
    dshape img = [2; 2] ∧ dshape ls = [2; 2] ∧
    Stardist.update 2 example_session =
    (Ok tt,
     Stardist.after example_session
       [Stardist.Figure 10 10; Stardist.Subplot 121;
        Stardist.Imshow img "gray" None;
        Stardist.Subplot 122;
        Stardist.Imshow img "gray" None;
        Stardist.Imshow ls "jet" (Some (1 # 2)%Q);
        Stardist.TightLayout; Stardist.FlushEvents] [pretty 2]).
Proof.
  apply (update_swallows_label_errors example_session 2 1 2 3 2 2 3 2 2).
  - split; [repeat constructor; lia|reflexivity].
  - split; [repeat constructor; lia|reflexivity].
  - reflexivity.
  - reflexivity.
  - lia.
  - lia.
  - lia.
  - lia.
Defined.

Lemma single_channel_labels_are_never_drawn_witness :
  let img := {| dshape := [2; 2]; dvals := [16; 17; 18; 19] |} in
  let ls := {| dshape := [2; 2]; dvals := [104; 105; 106; 107] |} in
  Stardist.update 1 example_session =
  (Ok tt,
   Stardist.after example_session
     [Stardist.Figure 10 10; Stardist.Subplot 121;
      Stardist.Imshow img "gray" None;
      Stardist.Subplot 122;
      Stardist.Imshow img "gray" None;
      Stardist.Imshow ls "jet" (Some (1 # 2)%Q);
      Stardist.TightLayout; Stardist.FlushEvents] [pretty 1]).
Proof.
  apply (single_channel_labels_are_never_drawn example_session 1 1 1 3 2 2).
  - reflexivity.
  - lia.
  - reflexivity.
  - reflexivity.
Defined.

Lemma update_beyond_last_section_witness :
  Stardist.update 3 example_session =
  (Raise (IndexError 2 3 3),
   Stardist.after example_session [Stardist.Figure 10 10; Stardist.Subplot 121] []).
Proof.
  apply (update_beyond_last_section example_session 3 1 2 3 2 2).
  - split; [repeat constructor; lia|reflexivity].
  - reflexivity.
  - lia.
  - lia.
  - lia.
Defined.

Lemma eager_load_copies_every_voxel_witness :
  let out := Stardist.load_binary_from_s3 "img.zarr" "0" example_store in
  trace out.2 =
    [EvOpen "https://uk1s3.embassy.ebi.ac.uk/img.zarr/0/";
     EvFetch (replicate 5 FullSlice)] ∧
  out.1 = Ok {| dshape := [1; 2; 3; 2; 2];
                dvals := [0; 0; 0; 0; 1; 1; 1; 1; 2; 2; 2; 2;
                          0; 0; 0; 0; 1; 1; 1; 1; 2; 2; 2; 2] |}.
Proof.
  destruct (eager_load_copies_every_voxel "img.zarr" "0" example_store
              (coordinate_array [1; 2; 3; 2; 2])) as [Ht _].
  - reflexivity.
  - repeat constructor; lia.
  - split; [exact Ht|reflexivity].
Defined.
